(** * Browsing Digest: extractor (content.js) and record store (background.js)

    A shallow embedding of the Chrome extension's content script and of its
    background service worker, followed by the properties of the
    specification that concern them.

    - JavaScript strings are sequences of UTF-16 code units ([list N]), so
      that [length] is [String.prototype.length].
    - JavaScript objects used as records ([pageData], stored entries,
      exported pages) are finite maps from property names to values.
    - The DOM is a finite tree of elements and text nodes.
    - [chrome.storage.local] is a finite map from keys to stored arrays; the
      asynchronous functions of the service worker become functions from the
      storage to a settled promise and the new storage. *)

From Stdlib Require Import ZArith NArith Lia.
From Stdlib Require DecimalString.
From stdpp Require Import gmap strings list fin_maps sorting.

Set Warnings "-register-all".

Open Scope N_scope.

(** ** JavaScript strings and values *)

Module JS.

(** A string is a sequence of UTF-16 code units. *)
Abbreviation jsstring := (list N).

(** A string literal of the source (ASCII only in this program). *)
Definition lit (s : string) : jsstring :=
  map Ascii.N_of_ascii (String.list_ascii_of_string s).

Definition TAB : N := 9.
Definition LF : N := 10.
Definition SPACE : N := 32.

(** The class [\s] of ECMAScript regular expressions, which is also the set
    of characters stripped by [String.prototype.trim]: WhiteSpace and
    LineTerminator code points. *)
Definition is_ws (c : N) : bool :=
  (c =? 9) || (c =? 10) || (c =? 11) || (c =? 12) || (c =? 13) ||
  (c =? 32) || (c =? 160) || (c =? 5760) ||
  ((8192 <=? c) && (c <=? 8202)) ||
  (c =? 8232) || (c =? 8233) || (c =? 8239) || (c =? 8287) ||
  (c =? 12288) || (c =? 65279).

(** [s.trimStart()], [s.trimEnd()], [s.trim()] *)
Fixpoint trimStart (s : jsstring) : jsstring :=
  match s with
  | [] => []
  | c :: r => if is_ws c then trimStart r else s
  end.

Definition trimEnd (s : jsstring) : jsstring :=
  reverse (trimStart (reverse s)).

Definition trim (s : jsstring) : jsstring := trimEnd (trimStart s).

(** [s.substring(0, n)] for [0 <= n] *)
Definition substring0 (n : nat) (s : jsstring) : jsstring := take n s.

(** [s.replace(/\s+/g, ' ')]: every maximal run of whitespace is replaced
    by one space. [inrun] tells that the previous code unit belonged to the
    run being replaced. *)
Fixpoint replace_ws_runs (inrun : bool) (s : jsstring) : jsstring :=
  match s with
  | [] => []
  | c :: r =>
      if is_ws c
      then if inrun then replace_ws_runs true r
           else SPACE :: replace_ws_runs true r
      else c :: replace_ws_runs false r
  end.

(** The length of the match of [\s*\n] anchored at the head of [s]: the
    star is greedy, so the match ends at the last line feed of the leading
    whitespace run. *)
Fixpoint match_ws_star_lf (s : jsstring) : option nat :=
  match s with
  | [] => None
  | c :: r =>
      if is_ws c then
        match match_ws_star_lf r with
        | Some n => Some (S n)
        | None => if c =? LF then Some 1%nat else None
        end
      else None
  end.

(** [s.replace(/\n\s*\n/g, '\n\n')]. [skip] counts the code units of the
    current match that are still to be consumed. *)
Fixpoint replace_blank_lines (skip : nat) (s : jsstring) : jsstring :=
  match s with
  | [] => []
  | c :: r =>
      match skip with
      | S k => replace_blank_lines k r
      | O =>
          if c =? LF then
            match match_ws_star_lf r with
            | Some n => LF :: LF :: replace_blank_lines n r
            | None => c :: replace_blank_lines 0 r
            end
          else c :: replace_blank_lines 0 r
      end
  end.

(** [s.split(/\s+/)]: the pieces between the maximal runs of whitespace;
    a run at either end of the string leaves an empty piece there, and the
    empty string gives one empty piece. [cur] is the piece being read. *)
Fixpoint split_ws (inrun : bool) (cur : jsstring) (s : jsstring)
  : list jsstring :=
  match s with
  | [] => [cur]
  | c :: r =>
      if is_ws c
      then if inrun then split_ws true [] r
           else cur :: split_ws true [] r
      else split_ws false (cur ++ [c]) r
  end.

Definition split_whitespace (s : jsstring) : list jsstring :=
  split_ws false [] s.

(** [Math.ceil(n / d)] for a count [n] and a positive [d]. The quotient of
    two small integers is either an integer or at least [1/d] away from
    one, so the floating-point division does not change the ceiling. *)
Definition ceil_div (n d : Z) : Z := ((n + d - 1) / d)%Z.

(** Primitive values held by the objects of this program. *)
Inductive Val :=
| VUndefined
| VNull
| VBool (b : bool)
| VNum (n : Z)
| VStr (s : jsstring).

Global Instance Val_eq_dec : EqDecision Val.
Proof. solve_decision. Defined.

(** ToBoolean *)
Definition truthy (v : Val) : bool :=
  match v with
  | VUndefined | VNull => false
  | VBool b => b
  | VNum n => negb (n =? 0)%Z
  | VStr s => match s with [] => false | _ => true end
  end.

(** [a || b] *)
Definition or_else (a b : Val) : Val := if truthy a then a else b.

(** Objects used as records, and property access [o.k]. *)
Abbreviation Obj := (gmap string Val).

Definition get (o : Obj) (k : string) : Val := default VUndefined (o !! k).

End JS.
Import JS.

(** ** The document tree *)

Module DOM.

(** Elements carry their local name (lower case in an HTML document), their
    attributes, and the tokens of their class attribute ([classList]). Text
    nodes carry their data. *)
Inductive Node :=
| TextNode (data : jsstring)
| Element (tagName : string) (attributes : list (string * string))
    (classList : list string) (childNodes : list Node).

(** [el.getAttribute(name)] *)
Fixpoint getAttribute (name : string) (attrs : list (string * string))
  : option string :=
  match attrs with
  | [] => None
  | (k, v) :: r => if bool_decide (k = name) then Some v
                   else getAttribute name r
  end.

(** The simple selectors this program uses: [tag], [[name="value"]],
    [.class] and [#id]. *)
Inductive Selector :=
| ByTag (name : string)
| ByAttr (name value : string)
| ByClass (name : string)
| ById (name : string).

(** [node.matches(sel)]; only elements match. *)
Definition matches (sel : Selector) (n : Node) : bool :=
  match n with
  | TextNode _ => false
  | Element tag attrs classes _ =>
      match sel with
      | ByTag t => bool_decide (tag = t)
      | ByAttr k v => bool_decide (getAttribute k attrs = Some v)
      | ByClass c => bool_decide (c ∈ classes)
      | ById i => bool_decide (getAttribute "id" attrs = Some i)
      end
  end.

(** A selector list [s1,s2,...] matches when one of its members does. *)
Definition matches_any (sels : list Selector) (n : Node) : bool :=
  existsb (fun sel => matches sel n) sels.

(** The first node in tree order, [n] included, that matches. *)
Fixpoint first_match (sel : Selector) (n : Node) : option Node :=
  match n with
  | TextNode _ => None
  | Element _ _ _ kids =>
      if matches sel n then Some n
      else (fix among (l : list Node) : option Node :=
              match l with
              | [] => None
              | k :: r => match first_match sel k with
                          | Some found => Some found
                          | None => among r
                          end
              end) kids
  end.

(** [node.textContent]: the data of the text descendants, in tree order. *)
Fixpoint textContent (n : Node) : jsstring :=
  match n with
  | TextNode d => d
  | Element _ _ _ kids =>
      (fix cat (l : list Node) : jsstring :=
         match l with
         | [] => []
         | k :: r => textContent k ++ cat r
         end) kids
  end.

(** [root.querySelectorAll(sels).forEach(el => el.remove())]: every
    descendant of [root] that matches is detached, with its subtree; [root]
    itself is not among the results of [querySelectorAll]. *)
Fixpoint remove_descendants (sels : list Selector) (n : Node) : Node :=
  match n with
  | TextNode d => TextNode d
  | Element tag attrs classes kids =>
      Element tag attrs classes
        ((fix prune (l : list Node) : list Node :=
            match l with
            | [] => []
            | k :: r => if matches_any sels k then prune r
                        else remove_descendants sels k :: prune r
            end) kids)
  end.

(** A document is its root element. [document.querySelector(sel)] searches
    the whole tree; [document.body] is the first [body] or [frameset] child
    of the root, and is [null] when there is none. *)
Record Document := { documentElement : Node }.

Definition querySelector (d : Document) (sel : Selector) : option Node :=
  first_match sel (documentElement d).

Definition is_body (n : Node) : bool :=
  matches (ByTag "body") n || matches (ByTag "frameset") n.

Definition body (d : Document) : option Node :=
  match documentElement d with
  | TextNode _ => None
  | Element _ _ _ kids => find is_body kids
  end.

End DOM.
Import DOM.

(** ** The content script (content.js) *)

Module Content.

(** The regular expressions of [skipPatterns] are literal texts, anchored at
    the start of the input ([/^chrome:/]) or not ([/localhost/]). *)
Record Pattern := { anchored : bool; literal : jsstring }.

Fixpoint starts_with (p s : jsstring) : bool :=
  match p, s with
  | [], _ => true
  | _ :: _, [] => false
  | a :: p', b :: s' => (a =? b) && starts_with p' s'
  end.

(** An unanchored pattern is tried at every position, from the left. *)
Fixpoint occurs_in (p s : jsstring) : bool :=
  starts_with p s ||
  match s with
  | [] => false
  | _ :: r => occurs_in p r
  end.

(** [pattern.test(s)] *)
Definition test (pat : Pattern) (s : jsstring) : bool :=
  if anchored pat then starts_with (literal pat) s
  else occurs_in (literal pat) s.

Definition at_start (s : string) : Pattern :=
  {| anchored := true; literal := lit s |}.
Definition anywhere (s : string) : Pattern :=
  {| anchored := false; literal := lit s |}.

Definition skipPatterns : list Pattern :=
  [ at_start "chrome:";
    at_start "chrome-extension:";
    at_start "about:";
    at_start "file:";
    at_start "data:";
    at_start "blob:";
    anywhere "localhost";
    anywhere "127.0.0.1";
    anywhere ".local" ].

(** [skipPatterns.some(pattern => pattern.test(currentUrl))] *)
Definition shouldSkip (currentUrl : jsstring) : bool :=
  existsb (fun pattern => test pattern currentUrl) skipPatterns.

Definition mainSelectors : list Selector :=
  [ ByTag "article";
    ByAttr "role" "main";
    ByTag "main";
    ByClass "post-content";
    ByClass "article-content";
    ByClass "entry-content";
    ByClass "content";
    ByClass "post";
    ById "content";
    ById "main" ].

Definition removeSelectors : list Selector :=
  [ ByTag "script"; ByTag "style"; ByTag "noscript"; ByTag "iframe";
    ByTag "nav"; ByTag "header"; ByTag "footer"; ByTag "aside";
    ByClass "sidebar"; ByClass "navigation"; ByClass "nav"; ByClass "menu";
    ByClass "comments"; ByClass "comment"; ByClass "advertisement";
    ByClass "ad"; ByClass "ads"; ByClass "social-share";
    ByClass "share-buttons"; ByClass "related-posts"; ByClass "recommended";
    ByAttr "role" "navigation"; ByAttr "role" "banner";
    ByAttr "role" "complementary"; ByAttr "aria-hidden" "true" ].

(** The test of the selection loop:
    [element && element.textContent.trim().length > 200]. *)
Definition long_enough (el : Node) : bool :=
  (200 <? length (trim (textContent el)))%nat.

Definition candidate (d : Document) (selector : Selector) : option Node :=
  match querySelector d selector with
  | Some element => if long_enough element then Some element else None
  | None => None
  end.

(** The loop over [mainSelectors], left at the first candidate ([break]);
    [None] is [mainElement === null] after the loop. *)
Fixpoint select_main (d : Document) (selectors : list Selector)
  : option Node :=
  match selectors with
  | [] => None
  | selector :: rest =>
      match candidate d selector with
      | Some element => Some element
      | None => select_main d rest
      end
  end.

(** [mainElement] after the fallback to [document.body], which may be
    [null]. *)
Definition mainElement (d : Document) : option Node :=
  match select_main d mainSelectors with
  | Some element => Some element
  | None => body d
  end.

(** The whitespace clean-up, in the order of the source. *)
Definition clean_whitespace (text : jsstring) : jsstring :=
  trim (replace_blank_lines 0 (replace_ws_runs false text)).

Definition maxLength : nat := 5000.

Definition truncation_marker : jsstring := lit "... [truncated]".

Definition truncate (text : jsstring) : jsstring :=
  if (maxLength <? length text)%nat
  then substring0 maxLength text ++ truncation_marker
  else text.

(** The text of the selected element once the unwanted descendants are
    removed from its copy; the copy is the element itself here, as values
    are not shared. *)
Definition cleaned_text (mainEl : Node) : jsstring :=
  let clone := mainEl in
  let clone := remove_descendants removeSelectors clone in
  clean_whitespace (textContent clone).

(** [extractMainContent()]; [None] is the TypeError raised by
    [mainElement.cloneNode] when no selector qualifies and the document has
    no body. *)
Definition extractMainContent (d : Document) : option jsstring :=
  match mainElement d with
  | None => None
  | Some mainEl => Some (truncate (cleaned_text mainEl))
  end.

(** What the script reads from its window: the load flag, the location, the
    document and its title, and the clock ([new Date().toISOString()]). *)
Record Window := {
  browsingDigestLoaded : bool;
  href : jsstring;
  hostname : jsstring;
  documentTitle : jsstring;
  document : Document;
  isoNow : jsstring
}.

Record PageData := {
  url : jsstring;
  title : jsstring;
  domain : jsstring;
  timestamp : jsstring;
  content : jsstring;
  wordCount : Z;
  readingTime : Z
}.

(** [extractPageData()] *)
Definition extractPageData (w : Window) : option PageData :=
  let url := href w in
  let title :=
    match documentTitle w with [] => lit "Untitled" | t => t end in
  let domain := hostname w in
  let timestamp := isoNow w in
  match extractMainContent (document w) with
  | None => None
  | Some content =>
      let wordCount := Z.of_nat (length (split_whitespace content)) in
      let readingTime := ceil_div wordCount 200 in
      Some {| url := url; title := title; domain := domain;
              timestamp := timestamp; content := content;
              wordCount := wordCount; readingTime := readingTime |}
  end.

(** The object that carries the page data in the [PAGE_DATA] message. *)
Definition toObj (p : PageData) : Obj :=
  <["url" := VStr (url p)]>
  (<["title" := VStr (title p)]>
  (<["domain" := VStr (domain p)]>
  (<["timestamp" := VStr (timestamp p)]>
  (<["content" := VStr (content p)]>
  (<["wordCount" := VNum (wordCount p)]>
  (<["readingTime" := VNum (readingTime p)]> ∅)))))).

(** What one run of the script comes to. *)
Inductive Outcome :=
| AlreadyLoaded
| Skipped
| ExtractionError
| Dropped
| Sent (data : PageData).

(** The body of the script; the two-second delay is not represented. *)
Definition run (w : Window) : Outcome :=
  if browsingDigestLoaded w then AlreadyLoaded
  else if shouldSkip (href w) then Skipped
  else match extractPageData w with
       | None => ExtractionError
       | Some pageData =>
           if (100 <? length (content pageData))%nat then Sent pageData
           else Dropped
       end.

End Content.
Import Content.

(** ** The background service worker (background.js) *)

Module Background.

Definition STORAGE_KEY : string := "browsing_history".
Definition MAX_ENTRIES : nat := 500.

(** [chrome.storage.local]: the arrays stored under each key. *)
Abbreviation Storage := (gmap string (list Obj)).

(** A settled promise. *)
Inductive Promise (A : Type) :=
| Resolved (value : A)
| Rejected (message : string).
Arguments Resolved {A} value.
Arguments Rejected {A} message.

(** What the surroundings decide during one call: the value of
    [chrome.runtime.lastError] in the callbacks of [storage.local.get] and
    [storage.local.set], the result of [generateId()], and the clock. *)
Record Env := {
  getError : option string;
  setError : option string;
  generateId : jsstring;
  isoNow : jsstring
}.

(** [arr.slice(-n)] for [n > 0]: the last [n] elements, or all of them. *)
Definition slice_last {A} (n : nat) (arr : list A) : list A :=
  drop (length arr - n) arr.

(** [result[STORAGE_KEY] || []] (an array, even empty, is truthy). *)
Definition stored_history (st : Storage) : list Obj :=
  default [] (st !! STORAGE_KEY).

(** The entry pushed by [savePageData]:
    [{...pageData, id: generateId(), savedAt: new Date().toISOString()}]. *)
Definition new_entry (pageData : Obj) (env : Env) : Obj :=
  <["savedAt" := VStr (isoNow env)]>
    (<["id" := VStr (generateId env)]> pageData).

(** The history written back by [savePageData]. *)
Definition pushed_history (history : list Obj) (entry : Obj) : list Obj :=
  let history := history ++ [entry] in
  if (MAX_ENTRIES <? length history)%nat
  then slice_last MAX_ENTRIES history
  else history.

Definition savePageData (pageData : Obj) (env : Env) (st : Storage)
  : Promise unit * Storage :=
  match getError env with
  | Some message => (Rejected message, st)
  | None =>
      let history := stored_history st in
      let history := pushed_history history (new_entry pageData env) in
      match setError env with
      | Some message => (Rejected message, st)
      | None => (Resolved tt, <[STORAGE_KEY := history]> st)
      end
  end.

(** A call whose surroundings report no storage error. *)
Definition calm_env (c : Obj * Env) : Prop :=
  getError c.2 = None ∧ setError c.2 = None.

(** Successive calls of [savePageData], each in its own surroundings. *)
Fixpoint save_each (captures : list (Obj * Env)) (st : Storage) : Storage :=
  match captures with
  | [] => st
  | (pageData, env) :: rest => save_each rest (savePageData pageData env st).2
  end.

Section Dates.

(** [new Date(v).toDateString()]: the calendar day of [v] in the local time
    zone, as a text ("Invalid Date" when [v] is not a date). It belongs to
    the JavaScript runtime and its time zone, and is left open. *)
Variable toDateString : Val -> jsstring.

(** The predicate of the two filters: the entry is of the day of [date]. *)
Definition same_day (date : Val) (entry : Obj) : Prop :=
  toDateString (get entry "timestamp") = toDateString date.

#[global] Instance same_day_dec date entry : Decision (same_day date entry).
Proof. unfold same_day. apply _. Defined.

Definition getHistory (date : Val) (env : Env) (st : Storage)
  : Promise (list Obj) :=
  match getError env with
  | Some message => Rejected message
  | None =>
      let history := stored_history st in
      let history :=
        if truthy date
        then filter (fun entry => same_day date entry) history
        else history in
      Resolved history
  end.

Record ExportDocument := {
  exportedAt : jsstring;
  date : Val;
  totalPages : nat;
  pages : list Obj
}.

(** The fields of a page of the export. *)
Definition exported_fields : gset string :=
  {[ "url"; "title"; "content"; "timestamp"; "domain"; "readingTime" ]}.

(** The object built for each page of the export. *)
Definition export_page (entry : Obj) : Obj :=
  <["url" := get entry "url"]>
  (<["title" := get entry "title"]>
  (<["content" := get entry "content"]>
  (<["timestamp" := get entry "timestamp"]>
  (<["domain" := get entry "domain"]>
  (<["readingTime" := get entry "readingTime"]> ∅))))).

Definition exportData (date : Val) (env : Env) (st : Storage)
  : Promise ExportDocument :=
  match getHistory date env st with
  | Rejected message => Rejected message
  | Resolved history =>
      Resolved {| exportedAt := isoNow env;
                  date := or_else date (VStr (lit "all"));
                  totalPages := length history;
                  pages := map export_page history |}
  end.

Definition clearHistory (date : Val) (env : Env) (st : Storage)
  : Promise unit * Storage :=
  if negb (truthy date) then
    match setError env with
    | Some message => (Rejected message, st)
    | None => (Resolved tt, <[STORAGE_KEY := []]> st)
    end
  else
    match getError env with
    | Some message => (Rejected message, st)
    | None =>
        let history := stored_history st in
        let history :=
          filter (fun entry => ¬ same_day date entry) history in
        match setError env with
        | Some message => (Rejected message, st)
        | None => (Resolved tt, <[STORAGE_KEY := history]> st)
        end
    end.

(** The messages of the listener and its answers ([sendResponse]). *)
Inductive Message :=
| PAGE_DATA (data : Obj)
| GET_HISTORY (date : Val)
| EXPORT_DATA (date : Val)
| CLEAR_HISTORY (date : Val).

Inductive Response :=
| Success
| SuccessHistory (data : list Obj)
| SuccessExport (data : ExportDocument)
| Failure (error : string).

Definition onMessage (message : Message) (env : Env) (st : Storage)
  : Response * Storage :=
  match message with
  | PAGE_DATA data =>
      match savePageData data env st with
      | (Resolved _, st') => (Success, st')
      | (Rejected error, st') => (Failure error, st')
      end
  | GET_HISTORY date =>
      match getHistory date env st with
      | Resolved data => (SuccessHistory data, st)
      | Rejected error => (Failure error, st)
      end
  | EXPORT_DATA date =>
      match exportData date env st with
      | Resolved data => (SuccessExport data, st)
      | Rejected error => (Failure error, st)
      end
  | CLEAR_HISTORY date =>
      match clearHistory date env st with
      | (Resolved _, st') => (Success, st')
      | (Rejected error, st') => (Failure error, st')
      end
  end.

End Dates.

End Background.
Import Background.

(** ** The words of the specification

    Two notions that the specification states in its own words, to be
    compared with what the source computes. *)

Module Spec.

(** "Whitespace-delimited tokens": the maximal runs of code units that are
    not whitespace. [cur] is the token being read, if any. *)
Fixpoint tokens_from (cur : option jsstring) (s : jsstring)
  : list jsstring :=
  match s with
  | [] => match cur with Some t => [t] | None => [] end
  | c :: r =>
      if is_ws c
      then match cur with
           | Some t => t :: tokens_from None r
           | None => tokens_from None r
           end
      else tokens_from (Some (default [] cur ++ [c])) r
  end.

Definition whitespace_tokens (s : jsstring) : list jsstring :=
  tokens_from None s.

(** The eligibility gate as the specification words it: internal browser
    and extension pages, the [about:], [file:], [data:] and [blob:] schemes,
    and the host names [localhost], [127.0.0.1] and those ending in
    [.local]. *)
Definition excluded_schemes : list string :=
  [ "chrome:"; "chrome-extension:"; "about:"; "file:"; "data:"; "blob:" ].

Definition ends_with (suffix s : jsstring) : bool :=
  starts_with (reverse suffix) (reverse s).

Definition local_host (host : jsstring) : bool :=
  bool_decide (host = lit "localhost") ||
  bool_decide (host = lit "127.0.0.1") ||
  ends_with (lit ".local") host.

Definition excluded_as_specified (w : Window) : bool :=
  existsb (fun scheme => starts_with (lit scheme) (href w)) excluded_schemes
  || local_host (hostname w).

(** A string with whitespace at neither end (the empty string included). *)
Definition clean_ends (s : jsstring) : Prop :=
  (∀ c, head s = Some c → is_ws c = false) ∧
  (∀ c, last s = Some c → is_ws c = false).

(** A selector qualifies with [el]: [el] is its first match in the document
    and the trimmed text of [el] is more than 200 code units long. *)
Definition qualifies (d : Document) (sel : Selector) (el : Node) : Prop :=
  querySelector d sel = Some el ∧
  (200 < length (trim (textContent el)))%nat.

(** The texts that the unanchored patterns of the gate look for. *)
Definition excluded_words : list string :=
  [ "localhost"; "127.0.0.1"; ".local" ].

End Spec.
Import Spec.

(** ** Sample pages and surroundings *)

Module Samples.

(** An HTML page with the given content of its body. *)
Definition page (kids : list Node) : Document :=
  {| documentElement :=
       Element "html" [] []
         [ Element "head" [] [] [ Element "title" [] [] [TextNode (lit "t")] ];
           Element "body" [] [] kids ] |}.

(** A window on a page at [https://example.com/article]. *)
Definition window_on (d : Document) : Window :=
  {| browsingDigestLoaded := false;
     href := lit "https://example.com/article";
     hostname := lit "example.com";
     documentTitle := lit "An article";
     document := d;
     Content.isoNow := lit "2026-02-06T10:00:00.000Z" |}.

(** A page of another site whose path mentions [localhost]. *)
Definition localhost_guide : Window :=
  {| browsingDigestLoaded := false;
     href := lit "https://example.com/localhost-setup";
     hostname := lit "example.com";
     documentTitle := lit "Setting up localhost";
     document := page [ TextNode (replicate 300 97) ];
     Content.isoNow := lit "2026-02-06T10:00:00.000Z" |}.

(** A window at another address, on an empty page. *)
Definition window_at (address host : string) : Window :=
  {| browsingDigestLoaded := false;
     href := lit address;
     hostname := lit host;
     documentTitle := [];
     document := page [];
     Content.isoNow := lit "2026-02-06T10:00:00.000Z" |}.

(** A page without text. *)
Definition blank_page : Document := page [].

(** A page whose text is one word of 5001 letters. *)
Definition long_page : Document :=
  page [ TextNode (replicate (S maxLength) 97) ].

(** A page with two paragraphs separated by two blank lines. *)
Definition two_paragraphs : jsstring :=
  lit "first" ++ [LF; LF; LF] ++ lit "second".

Definition paragraphs_page : Document :=
  page [ TextNode two_paragraphs ].

(** A page with an [article] of 150 letters before a [main] of 400. *)
Definition short_article : Node :=
  Element "article" [] [] [ TextNode (replicate 150 97) ].

Definition long_main : Node :=
  Element "main" [] [] [ TextNode (replicate 400 98) ].

Definition article_main_page : Document :=
  page [ short_article; long_main ].

(** A calendar day read off an ISO text in UTC: its first ten code units;
    anything else is not a date. *)
Definition utc_day (v : Val) : jsstring :=
  match v with
  | VStr s => if (10 <=? length s)%nat then take 10 s else lit "Invalid Date"
  | _ => lit "Invalid Date"
  end.

(** Surroundings without storage errors. *)
Definition calm (id now : string) : Env :=
  {| getError := None; setError := None;
     generateId := lit id; Background.isoNow := lit now |}.

(** A capture with the given address and instant. *)
Definition capture (address instant : string) : Obj :=
  <["url" := VStr (lit address)]>
  (<["title" := VStr (lit "A title")]>
  (<["domain" := VStr (lit "example.com")]>
  (<["timestamp" := VStr (lit instant)]>
  (<["content" := VStr (lit "Some text")]>
  (<["wordCount" := VNum 2]>
  (<["readingTime" := VNum 1]> ∅)))))).

(** 501 distinct captures, saved without storage errors. *)
Definition numbered (i : nat) : Obj * Env :=
  (<["url" := VNum (Z.of_nat i)]> ∅, calm "id" "2026-02-06T10:00:00.000Z").

Definition many_captures : list (Obj * Env) :=
  map numbered (seq 0 (S MAX_ENTRIES)).

(** Surroundings of the queries below, and the day they ask for. *)
Definition quiet : Env := calm "k3x9" "2026-02-07T08:00:00.000Z".
Definition feb5 : Val := VStr (lit "2026-02-05").

(** A store with three captures, of two days. *)
Definition three_captures : Storage :=
  {[ STORAGE_KEY :=
       [ capture "https://a.example/1" "2026-02-05T09:00:00.000Z";
         capture "https://b.example/2" "2026-02-06T10:00:00.000Z";
         capture "https://c.example/3" "2026-02-05T23:30:00.000Z" ] ]}.

End Samples.
Import Samples.

(** ** More of the service worker: installation and runs of messages *)

Module Worker.

(** The listener of [chrome.runtime.onInstalled]: the history is set to the
    empty array when nothing is stored under the key. The callback does not
    look at [chrome.runtime.lastError]; when the read fails it receives no
    result, the access to it raises and nothing is written. A failed write
    leaves the storage as it was. *)
Definition onInstalled (env : Env) (st : Storage) : Storage :=
  match getError env with
  | Some _ => st
  | None =>
      match st !! STORAGE_KEY with
      | Some _ => st
      | None =>
          match setError env with
          | Some _ => st
          | None => <[STORAGE_KEY := []]> st
          end
      end
  end.

(** The messages of a run, handled one after the other, each in its own
    surroundings; the responses, in order, and the storage at the end. *)
Fixpoint handle_all (toDateString : Val → jsstring)
    (messages : list (Message * Env)) (st : Storage)
  : list Response * Storage :=
  match messages with
  | [] => ([], st)
  | (message, env) :: rest =>
      let '(response, st') := onMessage toDateString message env st in
      let '(responses, st'') := handle_all toDateString rest st' in
      (response :: responses, st'')
  end.

End Worker.
Import Worker.

(** ** Notions used to state the properties of the tree and of the text *)

Module Notions.

(** The nodes below [n], in tree order. *)
Fixpoint descendants (n : Node) : list Node :=
  match n with
  | TextNode _ => []
  | Element _ _ _ kids =>
      (fix below (l : list Node) : list Node :=
         match l with
         | [] => []
         | k :: r => k :: descendants k ++ below r
         end) kids
  end.

(** Each token after a space, and the tokens joined by single spaces
    ([tokens.join(' ')]). *)
Fixpoint prefixed_by_space (tokens : list jsstring) : jsstring :=
  match tokens with
  | [] => []
  | t :: r => SPACE :: t ++ prefixed_by_space r
  end.

Definition join_with_spaces (tokens : list jsstring) : jsstring :=
  match tokens with
  | [] => []
  | t :: r => t ++ prefixed_by_space r
  end.

(** Whether [s] ends in whitespace, with [dflt] for the empty string, and
    the space written for the whitespace at the end of a text. *)
Definition ends_in_ws (dflt : bool) (s : jsstring) : bool :=
  match last s with Some c => is_ws c | None => dflt end.

Definition trail (b : bool) : jsstring := if b then [SPACE] else [].

(** The minutes of a page whose [readingTime] is a number, 0 otherwise;
    the instant of a page as a number, 0 when it is not a date; a page
    whose timestamp is a date. *)
Definition minutes (page : Obj) : Z :=
  match get page "readingTime" with VNum n => n | _ => 0%Z end.

Definition instant (getTime : Val → option Z) (page : Obj) : Z :=
  default 0%Z (getTime (get page "timestamp")).

Definition dated (getTime : Val → option Z) (page : Obj) : Prop :=
  is_Some (getTime (get page "timestamp")).

(** The code units that [escapeHtml] writes as entities. *)
Definition special (c : N) : bool :=
  (c =? 38) || (c =? 60) || (c =? 62) || (c =? 160).

(** A token: not empty and without whitespace. *)
Definition is_token (t : jsstring) : Prop :=
  t ≠ [] ∧ Forall (fun c => is_ws c = false) t.

(** An entry that went through [savePageData]: its [id] and [savedAt] are
    texts. *)
Definition stamped (entry : Obj) : Prop :=
  (∃ id, entry !! "id" = Some (VStr id)) ∧
  (∃ instant, entry !! "savedAt" = Some (VStr instant)).

End Notions.
Import Notions.

(** ** The popup (popup.js): icons, escaping, and the lists it shows *)

Module Popup.

(** The UTF-16 code units of a code point, and of a text given by its code
    points. *)
Definition utf16 (cp : N) : jsstring :=
  if cp <? 65536 then [cp]
  else let v := cp - 65536 in [55296 + v / 1024; 56320 + v mod 1024].

Definition text_of (code_points : list N) : jsstring :=
  flat_map utf16 code_points.

(** [s.includes(key)] *)
Definition includes (s key : jsstring) : bool := occurs_in key s.

(** The entries of [emojiMap], in the order of [Object.entries]: the order
    in which the keys are written. The icons are given by their code
    points: laptop, books, clapper board, bird, bird, robot, memo, man
    technologist (man, zero width joiner, laptop), orange circle,
    briefcase, open book, magnifying glass, package, clapper board, musical
    note. *)
Definition emojiMap : list (jsstring * jsstring) :=
  [ (lit "github.com", text_of [0x1F4BB]);
    (lit "stackoverflow.com", text_of [0x1F4DA]);
    (lit "youtube.com", text_of [0x1F3AC]);
    (lit "twitter.com", text_of [0x1F426]);
    (lit "x.com", text_of [0x1F426]);
    (lit "reddit.com", text_of [0x1F916]);
    (lit "medium.com", text_of [0x1F4DD]);
    (lit "dev.to", text_of [0x1F468; 0x200D; 0x1F4BB]);
    (lit "news.ycombinator.com", text_of [0x1F7E0]);
    (lit "linkedin.com", text_of [0x1F4BC]);
    (lit "wikipedia.org", text_of [0x1F4D6]);
    (lit "google.com", text_of [0x1F50D]);
    (lit "amazon.com", text_of [0x1F4E6]);
    (lit "netflix.com", text_of [0x1F3AC]);
    (lit "spotify.com", text_of [0x1F3B5]) ].

(** The globe returned when no key is found. *)
Definition default_emoji : jsstring := text_of [0x1F310].

(** The loop of [getEmojiForDomain] over the entries. *)
Fixpoint first_emoji (domain : jsstring)
    (entries : list (jsstring * jsstring)) : jsstring :=
  match entries with
  | [] => default_emoji
  | (key, emoji) :: rest =>
      if includes domain key then emoji else first_emoji domain rest
  end.

Definition getEmojiForDomain (domain : jsstring) : jsstring :=
  first_emoji domain emojiMap.

(** [escapeHtml(text)]: the text is made the content of a fresh [div] and
    the markup of the [div] is read back, which is the serialisation of one
    text node: [&], [<], [>] and the no-break space are written as
    [&amp;], [&lt;], [&gt;] and [&nbsp;], every other code unit as it
    is. *)
Definition escape_unit (c : N) : jsstring :=
  if c =? 38 then lit "&amp;"
  else if c =? 60 then lit "&lt;"
  else if c =? 62 then lit "&gt;"
  else if c =? 160 then lit "&nbsp;"
  else [c].

Fixpoint escapeHtml (text : jsstring) : jsstring :=
  match text with
  | [] => []
  | c :: r => escape_unit c ++ escapeHtml r
  end.

(** The excerpt of the report:
    [escapeHtml(page.content).substring(0, 500)] followed by three dots. *)
Definition excerpt (content : jsstring) : jsstring :=
  take 500 (escapeHtml content) ++ lit "...".

(** [String(n)] for an integer [n] (numbers are integers here, taken in the
    range where they are exact and written without exponent). *)
Definition numberToString (n : Z) : jsstring :=
  lit (DecimalString.NilZero.string_of_int (Z.to_int n)).

(** What [page.readingTime || 0] adds to the sum: a number, [true], or a
    text that is not empty; every falsy value counts as the number 0. *)
Inductive Addend :=
| AddNumber (n : Z)
| AddTrue
| AddText (s : jsstring).

Definition reading_addend (page : Obj) : Addend :=
  match get page "readingTime" with
  | VNum n => AddNumber n
  | VBool true => AddTrue
  | VStr (c :: s) => AddText (c :: s)
  | VUndefined | VNull | VBool false | VStr [] => AddNumber 0
  end.

(** The sum of a [reduce] that starts from the number 0 is a number until a
    text is added, and a text from then on. *)
Inductive Sum :=
| SumNumber (n : Z)
| SumText (s : jsstring).

(** [sum + (page.readingTime || 0)] *)
Definition add_reading (sum : Sum) (page : Obj) : Sum :=
  match sum, reading_addend page with
  | SumNumber a, AddNumber n => SumNumber (a + n)
  | SumNumber a, AddTrue => SumNumber (a + 1)
  | SumNumber a, AddText s => SumText (numberToString a ++ s)
  | SumText t, AddNumber n => SumText (t ++ numberToString n)
  | SumText t, AddTrue => SumText (t ++ lit "true")
  | SumText t, AddText s => SumText (t ++ s)
  end.

(** [pages.reduce((sum, page) => sum + (page.readingTime || 0), 0)] *)
Definition totalReadingTime (pages : list Obj) : Sum :=
  foldl add_reading (SumNumber 0) pages.

Section Dates.

(** As in the service worker, the day of a value as a text; and
    [new Date(v).getTime()], which is [NaN] ([None]) when [v] is not a
    date. Both belong to the runtime. *)
Variable toDateString : Val → jsstring.
Variable getTime : Val → option Z.

(** The filter of [refreshData] over the whole history, for the value of
    the date field. *)
Definition todayData (date : jsstring) (allData : list Obj) : list Obj :=
  filter (fun entry => same_day toDateString (VStr date) entry) allData.

(** [new Date(a) - new Date(b)] *)
Definition date_minus (a b : Val) : option Z :=
  match getTime a, getTime b with
  | Some x, Some y => Some (x - y)%Z
  | _, _ => None
  end.

(** The comparators of the two sorts: of the list of recent pages and of
    the report. *)
Definition newest_first (a b : Obj) : option Z :=
  date_minus (get b "timestamp") (get a "timestamp").

Definition oldest_first (a b : Obj) : option Z :=
  date_minus (get a "timestamp") (get b "timestamp").

(** [arr.sort(cmp)]. A result of the comparator that is [NaN] counts as 0.
    The sort is stable; with a consistent comparator its result is that of
    every stable sort, computed here by insertion from the right. *)
Definition sort_compare (cmp : Obj → Obj → option Z) (a b : Obj) : Z :=
  default 0%Z (cmp a b).

Fixpoint insert_sorted (cmp : Obj → Obj → option Z) (x : Obj)
    (l : list Obj) : list Obj :=
  match l with
  | [] => [x]
  | y :: r =>
      if (sort_compare cmp x y <=? 0)%Z then x :: y :: r
      else y :: insert_sorted cmp x r
  end.

Definition sort (cmp : Obj → Obj → option Z) (l : list Obj) : list Obj :=
  foldr (insert_sorted cmp) [] l.

(** The pages listed by [refreshData]:
    [todayData.sort(newest first).slice(0, 10)]. *)
Definition recentPages (today : list Obj) : list Obj :=
  take 10 (sort newest_first today).

(** The pages of the report, in the order of [generateHTMLReport]. *)
Definition sortedPages (pages : list Obj) : list Obj :=
  sort oldest_first pages.

End Dates.

End Popup.
Import Popup.

(** ** A sample clock *)

Module Clock.

(** The instant of an ISO text of 24 code units, as the number that its
    code units write in base 256: such texts are in the order of their
    instants. Anything else is not a date. *)
Definition iso_instant (v : Val) : option Z :=
  match v with
  | VStr s =>
      if (length s =? 24)%nat
      then Some (foldl (fun acc c => acc * 256 + Z.of_N c)%Z 0%Z s)
      else None
  | _ => None
  end.

End Clock.
Import Clock.

(** * Properties *)

(** ** Whitespace and trimming *)

Section Whitespace.

Implicit Types (s t : jsstring) (c : N).

Lemma is_ws_LF : is_ws LF = true.
Proof. reflexivity. Qed.

Lemma is_ws_SPACE : is_ws SPACE = true.
Proof. reflexivity. Qed.

(** The whitespace left by the first replacement is made of spaces. *)
Lemma replace_ws_runs_only_spaces inrun s c :
  c ∈ replace_ws_runs inrun s → is_ws c = true → c = SPACE.
Proof.
  revert inrun. induction s as [|a r IH]; intros inrun Hin Hws; simpl in Hin.
  - by apply elem_of_nil in Hin.
  - destruct (is_ws a) eqn:Ha.
    + destruct inrun.
      * by apply (IH true).
      * apply elem_of_cons in Hin as [->|Hin]; [done | by apply (IH true)].
    + apply elem_of_cons in Hin as [->|Hin]; [congruence | by apply (IH false)].
Qed.

Lemma replace_ws_runs_no_LF inrun s : LF ∉ replace_ws_runs inrun s.
Proof.
  intros Hin.
  by pose proof (replace_ws_runs_only_spaces _ _ _ Hin is_ws_LF).
Qed.

(** Inside a run nothing is written until the run is over. *)
Lemma replace_ws_runs_after_run s b post :
  replace_ws_runs true s = b :: post → is_ws b = false.
Proof.
  induction s as [|x r IH]; simpl; [done|].
  destruct (is_ws x) eqn:Hx; [done|]. by intros [= <- _].
Qed.

(** No two whitespace code units are adjacent after the first replacement:
    a space is followed by a code unit that is not whitespace. *)
Lemma replace_ws_runs_collapsed inrun s pre a b post :
  replace_ws_runs inrun s = pre ++ a :: b :: post →
  is_ws a = true → is_ws b = false.
Proof.
  revert inrun pre.
  induction s as [|x r IH]; intros inrun pre Heq Ha; simpl in Heq.
  - by destruct pre.
  - destruct (is_ws x) eqn:Hx.
    + destruct inrun; [by eapply IH|].
      destruct pre as [|p pre]; simpl in Heq.
      * injection Heq as _ Heq. by eapply replace_ws_runs_after_run.
      * injection Heq as _ Heq. by eapply IH.
    + destruct pre as [|p pre]; simpl in Heq.
      * injection Heq as Hxa _. congruence.
      * injection Heq as _ Heq. by eapply IH.
Qed.

(** The second replacement needs a line feed to match. *)
Lemma match_ws_star_lf_None s : LF ∉ s → match_ws_star_lf s = None.
Proof.
  induction s as [|c r IH]; intros Hnot; simpl; [done|].
  apply not_elem_of_cons in Hnot as [Hc Hr].
  rewrite (IH Hr). destruct (is_ws c); [|done].
  destruct (N.eqb_spec c LF); [congruence | done].
Qed.

Lemma replace_blank_lines_no_LF s : LF ∉ s → replace_blank_lines 0 s = s.
Proof.
  induction s as [|c r IH]; intros Hnot; simpl; [done|].
  apply not_elem_of_cons in Hnot as [Hc Hr].
  destruct (N.eqb_spec c LF); [congruence|]. by rewrite (IH Hr).
Qed.

Lemma trimStart_head s c : head (trimStart s) = Some c → is_ws c = false.
Proof.
  induction s as [|a r IH]; simpl; [done|].
  destruct (is_ws a) eqn:Ha; [done|]. simpl. congruence.
Qed.

(** [trimStart] removes a whitespace prefix. *)
Lemma trimStart_split s :
  ∃ pre, s = pre ++ trimStart s ∧ Forall (fun c => is_ws c = true) pre.
Proof.
  induction s as [|a r (pre & Heq & Hpre)]; simpl.
  - by exists [].
  - destruct (is_ws a) eqn:Ha.
    + exists (a :: pre). split; [simpl; congruence | by constructor].
    + by exists [].
Qed.

Lemma trimEnd_last s c : last (trimEnd s) = Some c → is_ws c = false.
Proof. unfold trimEnd. rewrite last_reverse. apply trimStart_head. Qed.

(** [trimEnd] removes a whitespace suffix. *)
Lemma trimEnd_split s :
  ∃ post, s = trimEnd s ++ post ∧ Forall (fun c => is_ws c = true) post.
Proof.
  destruct (trimStart_split (reverse s)) as (pre & Heq & Hpre).
  exists (reverse pre). split.
  - unfold trimEnd. rewrite <- reverse_app, <- Heq. by rewrite reverse_involutive.
  - by apply Forall_reverse.
Qed.

Lemma trimEnd_head s c :
  head s = Some c → is_ws c = false → head (trimEnd s) = Some c.
Proof.
  intros Hhd Hc. destruct (trimEnd_split s) as (post & Heq & Hpost).
  destruct (trimEnd s) as [|a r] eqn:Hts.
  - simpl in Heq. subst post. destruct s as [|x s]; simplify_eq/=.
    apply Forall_cons in Hpost as [? _]. congruence.
  - rewrite Heq in Hhd. simpl in *. done.
Qed.

(** A trimmed string has whitespace at neither end. *)
Lemma trim_head s c : head (trim s) = Some c → is_ws c = false.
Proof.
  unfold trim. intros Hhd.
  destruct (trimEnd_split (trimStart s)) as (post & Heq & _).
  apply (trimStart_head s). rewrite Heq.
  destruct (trimEnd (trimStart s)); simplify_eq/=. done.
Qed.

Lemma trim_last s c : last (trim s) = Some c → is_ws c = false.
Proof. apply trimEnd_last. Qed.

(** Trimming keeps the middle of the string. *)
Lemma trim_split s :
  ∃ pre post, s = pre ++ trim s ++ post ∧
    Forall (fun c => is_ws c = true) pre ∧
    Forall (fun c => is_ws c = true) post.
Proof.
  destruct (trimStart_split s) as (pre & Heq & Hpre).
  destruct (trimEnd_split (trimStart s)) as (post & Heq' & Hpost).
  exists pre, post. unfold trim. by rewrite <- Heq', <- Heq.
Qed.

End Whitespace.

(** ** The cleaned text *)

Section CleanedText.

Implicit Types (s t text : jsstring) (c : N) (d : Document).

(** After the first replacement the second one finds nothing to replace. *)
Lemma clean_whitespace_unfold text :
  clean_whitespace text = trim (replace_ws_runs false text).
Proof.
  unfold clean_whitespace.
  by rewrite replace_blank_lines_no_LF by apply replace_ws_runs_no_LF.
Qed.

Lemma clean_whitespace_infix text :
  ∃ pre post, replace_ws_runs false text = pre ++ clean_whitespace text ++ post.
Proof.
  rewrite clean_whitespace_unfold.
  destruct (trim_split (replace_ws_runs false text)) as (pre & post & Heq & _).
  by exists pre, post.
Qed.

Lemma clean_whitespace_only_spaces text c :
  c ∈ clean_whitespace text → is_ws c = true → c = SPACE.
Proof.
  destruct (clean_whitespace_infix text) as (pre & post & Heq).
  intros Hin. apply (replace_ws_runs_only_spaces false text).
  rewrite Heq. set_solver.
Qed.

Lemma clean_whitespace_no_LF text : LF ∉ clean_whitespace text.
Proof.
  intros Hin.
  by pose proof (clean_whitespace_only_spaces _ _ Hin is_ws_LF).
Qed.

(** Runs of whitespace are collapsed: whitespace is followed by something
    else. *)
Lemma clean_whitespace_collapsed text pre a b post :
  clean_whitespace text = pre ++ a :: b :: post →
  is_ws a = true → is_ws b = false.
Proof.
  destruct (clean_whitespace_infix text) as (p & q & Heq). intros Hc.
  rewrite Hc in Heq.
  apply (replace_ws_runs_collapsed false text (p ++ pre) a b (post ++ q)).
  rewrite Heq. by rewrite <- !app_assoc.
Qed.

Lemma clean_whitespace_ends text : clean_ends (clean_whitespace text).
Proof.
  rewrite clean_whitespace_unfold. split; [apply trim_head | apply trim_last].
Qed.

Lemma truncation_marker_length : length truncation_marker = 15%nat.
Proof. reflexivity. Qed.

Lemma truncate_short text :
  (length text ≤ maxLength)%nat → truncate text = text.
Proof.
  intros Hle. unfold truncate.
  destruct (Nat.ltb_spec maxLength (length text)); [lia | done].
Qed.

Lemma truncate_long text :
  (maxLength < length text)%nat →
  truncate text = take maxLength text ++ truncation_marker.
Proof.
  intros Hlt. unfold truncate, substring0.
  destruct (Nat.ltb_spec maxLength (length text)); [done | lia].
Qed.

Lemma truncate_long_length text :
  (maxLength < length text)%nat →
  length (truncate text) = (maxLength + 15)%nat.
Proof.
  intros Hlt. rewrite truncate_long by done.
  rewrite length_app, length_take_le, truncation_marker_length by lia. done.
Qed.

(** What bounds the stored text: the limit and the marker after it. *)
Lemma truncate_length text :
  (length (truncate text) ≤ maxLength + 15)%nat.
Proof.
  destruct (Nat.le_gt_cases (length text) maxLength).
  - rewrite truncate_short by done. lia.
  - rewrite truncate_long_length by done. lia.
Qed.

Lemma truncate_clean_ends s : clean_ends s → clean_ends (truncate s).
Proof.
  intros [Hhd Hlast].
  destruct (Nat.le_gt_cases (length s) maxLength) as [Hle|Hgt].
  - by rewrite truncate_short.
  - rewrite truncate_long by done. split; intros c.
    + destruct s as [|a r]; [simpl in Hgt; lia|].
      change maxLength with (S (pred maxLength)). simpl.
      intros [= <-]. by apply Hhd.
    + rewrite last_app. change (last truncation_marker) with (Some 93).
      by intros [= <-].
Qed.

Lemma truncate_nil_inv s : truncate s = [] → s = [].
Proof.
  destruct (Nat.le_gt_cases (length s) maxLength) as [Hle|Hgt].
  - by rewrite truncate_short.
  - rewrite truncate_long by done. intros Heq.
    apply app_eq_nil in Heq as [_ Heq]. discriminate.
Qed.

Lemma extractMainContent_Some d content :
  extractMainContent d = Some content →
  ∃ mainEl, mainElement d = Some mainEl ∧
            content = truncate (cleaned_text mainEl).
Proof.
  unfold extractMainContent. destruct (mainElement d) as [el|]; [|done].
  intros [= <-]. by exists el.
Qed.

Lemma extractMainContent_clean_ends d content :
  extractMainContent d = Some content → clean_ends content.
Proof.
  intros (el & _ & ->)%extractMainContent_Some.
  apply truncate_clean_ends, clean_whitespace_ends.
Qed.

(** A document with a body always yields a text. *)
Lemma extractMainContent_total d b :
  body d = Some b → is_Some (extractMainContent d).
Proof.
  intros Hb. unfold extractMainContent, mainElement. rewrite Hb.
  by destruct (select_main d mainSelectors).
Qed.

(** C9 (blank lines). No line feed is left in the cleaned text, since the
    first replacement turns every run of whitespace, line feeds included,
    into one space before the second replacement looks for blank lines: two
    paragraphs separated by blank lines come out separated by one space. *)
Theorem blank_lines_become_a_space :
  (∀ text, LF ∉ clean_whitespace text) ∧
  (∀ text, clean_whitespace text = trim (replace_ws_runs false text)) ∧
  clean_whitespace two_paragraphs = lit "first second" ∧
  extractMainContent paragraphs_page = Some (lit "first second").
Proof.
  split; [apply clean_whitespace_no_LF|].
  split; [apply clean_whitespace_unfold|].
  split; vm_compute; reflexivity.
Qed.

End CleanedText.

(** ** Word count and reading time *)

Section WordCount.

Implicit Types (s t cur : jsstring) (c : N) (w : Window) (p : PageData).

(** Splitting never gives an empty array. *)
Lemma split_ws_length_pos inrun cur s :
  (1 ≤ length (split_ws inrun cur s))%nat.
Proof.
  revert inrun cur. induction s as [|c r IH]; intros inrun cur; simpl; [lia|].
  destruct (is_ws c); [|apply IH].
  destruct inrun; [apply IH | simpl; lia].
Qed.

(** Away from the ends of the string the pieces of the split are the
    tokens: once after a run of whitespace and with more to read, and once
    inside a token. *)
Lemma split_ws_tokens s :
  ((∃ c, last s = Some c ∧ is_ws c = false) →
     split_ws true [] s = tokens_from None s) ∧
  (∀ cur, (∀ c, last s = Some c → is_ws c = false) →
     split_ws false cur s = tokens_from (Some cur) s).
Proof.
  induction s as [|a r [IHrun IHtok]].
  - split; [by intros (c & ? & _) | done].
  - assert (Hlast : ∀ c, is_ws a = true →
              (∀ c', last (a :: r) = Some c' → is_ws c' = false) →
              last r = Some c → is_ws c = false).
    { intros c Ha Hall Hc. apply Hall. rewrite last_cons, Hc. done. }
    assert (Hr : is_ws a = true →
              (∀ c', last (a :: r) = Some c' → is_ws c' = false) →
              ∃ c, last r = Some c ∧ is_ws c = false).
    { intros Ha Hall. destruct (last r) as [c|] eqn:Hc.
      - exists c. split; [done|]. by apply Hlast.
      - apply last_None in Hc as ->. specialize (Hall a eq_refl). congruence. }
    assert (Htl : (∀ c', last (a :: r) = Some c' → is_ws c' = false) →
              ∀ c, last r = Some c → is_ws c = false).
    { intros Hall c Hc. apply Hall. by rewrite last_cons, Hc. }
    split.
    + intros (c & Hc & Hws). simpl. destruct (is_ws a) eqn:Ha.
      * apply IHrun, Hr; [done|]. intros c'. rewrite Hc. by intros [= <-].
      * apply IHtok, Htl. intros c'. rewrite Hc. by intros [= <-].
    + intros cur Hall. simpl. destruct (is_ws a) eqn:Ha.
      * f_equal. by apply IHrun, Hr.
      * by apply IHtok, Htl.
Qed.

(** On a non-empty string with whitespace at neither end, [split(/\s+/)]
    gives the whitespace-delimited tokens. *)
Lemma split_whitespace_tokens s :
  clean_ends s → s ≠ [] → split_whitespace s = whitespace_tokens s.
Proof.
  intros [Hhd Hlast] Hne. destruct s as [|a r]; [done|].
  unfold split_whitespace, whitespace_tokens. simpl.
  rewrite (Hhd a eq_refl). simpl.
  apply (split_ws_tokens r). intros c Hc. apply Hlast.
  by rewrite last_cons, Hc.
Qed.

(** [Math.ceil(n / 200)] is the least integer [r] with [n ≤ 200 * r]. *)
Lemma ceil_div_200 n :
  (200 * (ceil_div n 200 - 1) < n ≤ 200 * ceil_div n 200)%Z.
Proof.
  unfold ceil_div.
  pose proof (Z.div_mod (n + 200 - 1) 200 ltac:(lia)).
  pose proof (Z.mod_pos_bound (n + 200 - 1) 200 ltac:(lia)).
  lia.
Qed.

Lemma extractPageData_Some w p :
  extractPageData w = Some p →
  extractMainContent (document w) = Some (content p) ∧
  wordCount p = Z.of_nat (length (split_whitespace (content p))) ∧
  readingTime p = ceil_div (wordCount p) 200.
Proof.
  unfold extractPageData.
  destruct (extractMainContent (document w)) as [text|]; [|done].
  by intros [= <-].
Qed.

(** The empty page: its content is empty and it counts one word, where the
    empty text has no token. *)
Lemma empty_content_counts_one_word :
  ∃ p, extractPageData (window_on blank_page) = Some p ∧
       content p = [] ∧
       wordCount p = 1%Z ∧
       Z.of_nat (length (whitespace_tokens (content p))) = 0%Z ∧
       wordCount p ≠ Z.of_nat (length (whitespace_tokens (content p))).
Proof.
  eexists. split; [vm_compute; reflexivity|]. simpl. repeat split; done.
Qed.

(** C8 (word count and reading time). When the cleaned content is not
    empty, [wordCount] is the number of its whitespace-delimited tokens and
    [readingTime] is at least 1; [readingTime] is the ceiling of
    [wordCount / 200] for every page, and is at least 1 whenever
    [wordCount] is positive. *)
Theorem word_count_of_nonempty_content w p :
  extractPageData w = Some p →
  (content p ≠ [] →
     wordCount p = Z.of_nat (length (whitespace_tokens (content p)))) ∧
  (200 * (readingTime p - 1) < wordCount p ≤ 200 * readingTime p)%Z ∧
  (content p ≠ [] → 1 ≤ readingTime p)%Z ∧
  (0 < wordCount p → 1 ≤ readingTime p)%Z.
Proof.
  intros (Hc & Hw & Hr)%extractPageData_Some.
  pose proof (extractMainContent_clean_ends _ _ Hc) as Hends.
  pose proof (split_ws_length_pos false [] (content p)) as Hpos.
  fold (split_whitespace (content p)) in Hpos.
  pose proof (ceil_div_200 (wordCount p)) as Hceil. rewrite <- Hr in Hceil.
  split; [|repeat split; lia].
  intros Hne. by rewrite <- (split_whitespace_tokens _ Hends Hne).
Qed.

(** C10 (empty content). [wordCount] is at least 1 for every page, and so
    is [readingTime]; an empty content counts exactly one word and one
    minute. *)
Theorem word_count_at_least_one w p :
  extractPageData w = Some p →
  (1 ≤ wordCount p)%Z ∧
  (1 ≤ readingTime p)%Z ∧
  (content p = [] → split_whitespace (content p) = [[]] ∧
                    wordCount p = 1%Z ∧ readingTime p = 1%Z).
Proof.
  intros (Hc & Hw & Hr)%extractPageData_Some.
  pose proof (split_ws_length_pos false [] (content p)) as Hpos.
  fold (split_whitespace (content p)) in Hpos.
  pose proof (ceil_div_200 (wordCount p)) as Hceil. rewrite <- Hr in Hceil.
  split; [lia|]. split; [lia|].
  intros Hnil. rewrite Hnil in Hw. rewrite Hnil.
  split; [done|]. simpl in Hw. split; [done|].
  rewrite Hr, Hw. reflexivity.
Qed.

(** The page with two paragraphs: its content is not empty. *)
Lemma word_count_of_nonempty_content_witness :
  ∃ p, extractPageData (window_on paragraphs_page) = Some p ∧
       content p ≠ [] ∧
       wordCount p = Z.of_nat (length (whitespace_tokens (content p))) ∧
       (1 ≤ readingTime p)%Z.
Proof.
  eexists. split; [vm_compute; reflexivity|]. split; [discriminate|].
  destruct (word_count_of_nonempty_content
              (window_on paragraphs_page) _ eq_refl)
    as (Hcount & _ & Hread & _).
  cbn [content] in Hcount, Hread.
  split; [apply Hcount | apply Hread]; discriminate.
Defined.

(** The page without text: one word, one minute. *)
Lemma word_count_at_least_one_witness :
  ∃ p, extractPageData (window_on blank_page) = Some p ∧
       content p = [] ∧ wordCount p = 1%Z ∧ readingTime p = 1%Z.
Proof.
  eexists. split; [vm_compute; reflexivity|]. split; [reflexivity|].
  destruct (word_count_at_least_one (window_on blank_page) _ eq_refl)
    as (_ & _ & Hempty).
  destruct (Hempty eq_refl) as (_ & Hw & Hr).
  split; [exact Hw | exact Hr].
Defined.

End WordCount.

(** ** Selection of the main element *)

Section MainElement.

Implicit Types (d : Document) (sel : Selector) (el : Node).

Lemma candidate_Some d sel el :
  candidate d sel = Some el ↔ qualifies d sel el.
Proof.
  unfold candidate, qualifies, long_enough.
  destruct (querySelector d sel) as [e|]; [|split; [done | by intros [? _]]].
  destruct (Nat.ltb_spec 200 (length (trim (textContent e)))) as [Hlt|Hge].
  - split; [by intros [= <-] | by intros [[= <-] _]].
  - split; [done | intros [[= <-] ?]; lia].
Qed.

Lemma candidate_None d sel :
  candidate d sel = None ↔ ¬ ∃ el, qualifies d sel el.
Proof.
  split.
  - intros Hnone (el & Hq). apply candidate_Some in Hq. congruence.
  - intros Hno. destruct (candidate d sel) as [el|] eqn:Hc; [|done].
    destruct Hno. exists el. by apply candidate_Some.
Qed.

(** The loop stops at the first selector that qualifies, whatever follows
    it in the list. *)
Lemma select_main_first d before sel after el :
  (∀ s, s ∈ before → ¬ ∃ e, qualifies d s e) →
  qualifies d sel el →
  select_main d (before ++ sel :: after) = Some el.
Proof.
  intros Hbefore Hq. induction before as [|s before IH]; simpl.
  - apply candidate_Some in Hq. by rewrite Hq.
  - assert (candidate d s = None) as ->
      by (apply candidate_None, Hbefore; left).
    apply IH. intros s' Hs'. apply Hbefore. by right.
Qed.

Lemma select_main_none d sels :
  (∀ s, s ∈ sels → ¬ ∃ e, qualifies d s e) → select_main d sels = None.
Proof.
  induction sels as [|s sels IH]; intros Hall; simpl; [done|].
  assert (candidate d s = None) as -> by (apply candidate_None, Hall; left).
  apply IH. intros s' Hs'. apply Hall. by right.
Qed.

(** Either some selector is the first to qualify or none does. *)
Lemma select_main_cases d sels :
  (∃ before sel after el,
     sels = before ++ sel :: after ∧
     (∀ s, s ∈ before → ¬ ∃ e, qualifies d s e) ∧
     qualifies d sel el) ∨
  (∀ s, s ∈ sels → ¬ ∃ e, qualifies d s e).
Proof.
  induction sels as [|s sels IH].
  - right. intros s Hs. by apply elem_of_nil in Hs.
  - destruct (candidate d s) as [el|] eqn:Hc.
    + left. exists [], s, sels, el. split; [done|]. split.
      * intros s' Hs'. by apply elem_of_nil in Hs'.
      * by apply candidate_Some.
    + apply candidate_None in Hc.
      destruct IH as [(before & sel & after & el & -> & Hb & Hq)|Hnone].
      * left. exists (s :: before), sel, after, el. split; [done|].
        split; [|done]. intros s' [->|Hs']%elem_of_cons; [done | by apply Hb].
      * right. intros s' [->|Hs']%elem_of_cons; [done | by apply Hnone].
Qed.

(** C6 (main-content selection). The selectors are tried in the order of
    [mainSelectors]; the element chosen is the first match of the first
    selector that qualifies, whatever the later selectors match; when no
    selector qualifies the body is chosen. One of the two cases always
    applies. With an [article] of 150 code units and a [main] of 400 code
    units, where nothing else qualifies for the main role, the [main]
    element is chosen. *)
Theorem main_element_is_first_qualifying d :
  (∀ before sel after el,
     mainSelectors = before ++ sel :: after →
     (∀ s, s ∈ before → ¬ ∃ e, qualifies d s e) →
     qualifies d sel el →
     mainElement d = Some el) ∧
  ((∀ s, s ∈ mainSelectors → ¬ ∃ e, qualifies d s e) →
     mainElement d = body d) ∧
  ((∃ before sel after el,
      mainSelectors = before ++ sel :: after ∧
      (∀ s, s ∈ before → ¬ ∃ e, qualifies d s e) ∧
      qualifies d sel el) ∨
   (∀ s, s ∈ mainSelectors → ¬ ∃ e, qualifies d s e)) ∧
  (∀ a m,
     querySelector d (ByTag "article") = Some a →
     length (trim (textContent a)) = 150%nat →
     (∀ r, qualifies d (ByAttr "role" "main") r → r = m) →
     querySelector d (ByTag "main") = Some m →
     length (trim (textContent m)) = 400%nat →
     mainElement d = Some m).
Proof.
  assert (Hfirst : ∀ before sel after el,
            mainSelectors = before ++ sel :: after →
            (∀ s, s ∈ before → ¬ ∃ e, qualifies d s e) →
            qualifies d sel el →
            mainElement d = Some el).
  { intros before sel after el Heq Hb Hq. unfold mainElement.
    rewrite Heq. by rewrite (select_main_first d before sel after el). }
  split; [exact Hfirst|]. split; [|split].
  - intros Hnone. unfold mainElement. by rewrite select_main_none.
  - apply select_main_cases.
  - intros a m Ha Hla Hrole Hm Hlm.
    assert (Harticle : ¬ ∃ e, qualifies d (ByTag "article") e).
    { intros (e & He & Hlen). rewrite Ha in He. injection He as <-. lia. }
    destruct (candidate d (ByAttr "role" "main")) as [r|] eqn:Hr.
    + apply candidate_Some in Hr. rewrite (Hrole r Hr) in Hr.
      apply (Hfirst [ByTag "article"] (ByAttr "role" "main")
               (drop 2 mainSelectors)); [reflexivity | | done].
      intros s Hs. apply list_elem_of_singleton in Hs. by subst s.
    + apply candidate_None in Hr.
      apply (Hfirst [ByTag "article"; ByAttr "role" "main"] (ByTag "main")
               (drop 3 mainSelectors)); [reflexivity | | ].
      * intros s Hs. apply elem_of_cons in Hs as [->|Hs]; [done|].
        apply list_elem_of_singleton in Hs. by subst s.
      * split; [done | lia].
Qed.

(** The sample page with a short [article] and a long [main]. *)
Lemma main_element_is_first_qualifying_witness :
  querySelector article_main_page (ByTag "article") = Some short_article ∧
  length (trim (textContent short_article)) = 150%nat ∧
  (∀ r, qualifies article_main_page (ByAttr "role" "main") r →
        r = long_main) ∧
  querySelector article_main_page (ByTag "main") = Some long_main ∧
  length (trim (textContent long_main)) = 400%nat ∧
  mainElement article_main_page = Some long_main.
Proof.
  assert (H1 : querySelector article_main_page (ByTag "article")
               = Some short_article) by reflexivity.
  assert (H2 : length (trim (textContent short_article)) = 150%nat)
    by (vm_compute; reflexivity).
  assert (H3 : ∀ r, qualifies article_main_page (ByAttr "role" "main") r →
                    r = long_main)
    by (intros r [Hq _]; discriminate Hq).
  assert (H4 : querySelector article_main_page (ByTag "main")
               = Some long_main) by reflexivity.
  assert (H5 : length (trim (textContent long_main)) = 400%nat)
    by (vm_compute; reflexivity).
  repeat (split; [assumption|]).
  exact (proj2 (proj2 (proj2
           (main_element_is_first_qualifying article_main_page)))
           short_article long_main H1 H2 H3 H4 H5).
Defined.

End MainElement.

(** ** The eligibility gate *)

Section EligibilityGate.

Implicit Types (p s url : jsstring) (w : Window).

Lemma starts_with_prefix p s :
  starts_with p s = true ↔ ∃ rest, s = p ++ rest.
Proof.
  revert s. induction p as [|a p IH]; intros s; simpl.
  - split; [by exists s | done].
  - destruct s as [|b s]; [split; [done | by intros (? & ?)]|].
    rewrite andb_true_iff, N.eqb_eq, IH. split.
    + intros (-> & rest & ->). by exists rest.
    + intros (rest & [= -> ->]). split; [done | by exists rest].
Qed.

Lemma occurs_in_infix p s :
  occurs_in p s = true ↔ ∃ before after, s = before ++ p ++ after.
Proof.
  induction s as [|b s IH].
  - simpl. rewrite orb_false_r, starts_with_prefix. split.
    + intros (rest & Heq). by exists [], rest.
    + intros (before & after & Heq). symmetry in Heq.
      apply app_eq_nil in Heq as [-> Heq]. by exists after.
  - change (occurs_in p (b :: s))
      with (starts_with p (b :: s) || occurs_in p s).
    rewrite orb_true_iff, starts_with_prefix, IH. split.
    + intros [(rest & Heq)|(before & after & ->)].
      * by exists [], rest.
      * by exists (b :: before), after.
    + intros ([|b' before] & after & Heq).
      * left. by exists after.
      * right. injection Heq as -> ->. by exists before, after.
Qed.

(** The gate in terms of texts: one of the six schemes starts the address,
    or one of the three words occurs somewhere in it. *)
Lemma skipPatterns_parts :
  skipPatterns = map at_start excluded_schemes ++ map anywhere excluded_words.
Proof. reflexivity. Qed.

Lemma existsb_map_true {A B} (f : A → B) (g : B → bool) (l : list A) :
  existsb g (map f l) = true ↔ ∃ x, x ∈ l ∧ g (f x) = true.
Proof.
  rewrite existsb_exists. setoid_rewrite in_map_iff.
  setoid_rewrite <- list_elem_of_In. split.
  - intros (y & (x & <- & Hx) & Hg). by exists x.
  - intros (x & Hx & Hg). exists (f x). split; [by exists x | done].
Qed.

Lemma shouldSkip_iff url :
  shouldSkip url = true ↔
    (∃ scheme rest, scheme ∈ excluded_schemes ∧ url = lit scheme ++ rest) ∨
    (∃ word before after,
        word ∈ excluded_words ∧ url = before ++ lit word ++ after).
Proof.
  unfold shouldSkip. rewrite skipPatterns_parts, existsb_app, orb_true_iff.
  rewrite !existsb_map_true. split.
  - intros [(scheme & Hin & Ht)|(word & Hin & Ht)].
    + apply starts_with_prefix in Ht as (rest & Heq).
      left. by exists scheme, rest.
    + apply occurs_in_infix in Ht as (before & after & Heq).
      right. by exists word, before, after.
  - intros [(scheme & rest & Hin & Heq)|(word & before & after & Hin & Heq)].
    + left. exists scheme. split; [done|].
      apply starts_with_prefix. by exists rest.
    + right. exists word. split; [done|].
      apply occurs_in_infix. by exists before, after.
Qed.

Lemma ends_with_suffix p s :
  ends_with p s = true ↔ ∃ before, s = before ++ p.
Proof.
  unfold ends_with. rewrite starts_with_prefix. split.
  - intros (rest & Heq). exists (reverse rest).
    apply (inj reverse). by rewrite Heq, reverse_app, reverse_involutive.
  - intros (before & ->). exists (reverse before). by rewrite reverse_app.
Qed.

(** Every page that the wording excludes is skipped, as long as the host
    name is part of the address. *)
Lemma specified_exclusions_are_skipped w :
  (∃ before after, href w = before ++ hostname w ++ after) →
  excluded_as_specified w = true → shouldSkip (href w) = true.
Proof.
  intros (before & after & Hhref). unfold excluded_as_specified, local_host.
  rewrite !orb_true_iff, !bool_decide_eq_true, ends_with_suffix.
  intros [Hscheme|[[Hhost|Hhost]|(pre & Hhost)]]; apply shouldSkip_iff.
  - left. apply existsb_exists in Hscheme as (scheme & Hin & Ht).
    apply starts_with_prefix in Ht as (rest & Heq).
    exists scheme, rest. by rewrite <- list_elem_of_In in Hin.
  - right. exists "localhost", before, after.
    split; [set_solver | by rewrite <- Hhost].
  - right. exists "127.0.0.1", before, after.
    split; [set_solver | by rewrite <- Hhost].
  - right. exists ".local", (before ++ pre), after.
    split; [set_solver|]. by rewrite Hhref, Hhost, <- !app_assoc.
Qed.

Lemma run_Skipped w :
  browsingDigestLoaded w = false →
  (run w = Skipped ↔ shouldSkip (href w) = true).
Proof.
  intros Hl. unfold run. rewrite Hl.
  destruct (shouldSkip (href w)); [done|].
  destruct (extractPageData w) as [pd|]; [|done].
  by destruct (100 <? length (content pd))%nat.
Qed.

(** An address of another site that mentions [localhost] in its path: the
    host is not local and the scheme is [https:], yet the page is skipped. *)
Lemma path_mentioning_localhost_is_skipped :
  excluded_as_specified localhost_guide = false ∧
  shouldSkip (href localhost_guide) = true ∧
  run localhost_guide = Skipped.
Proof. repeat split; vm_compute; reflexivity. Qed.

(** C7 (eligibility gate). A page is skipped exactly when its address
    starts with one of [chrome:], [chrome-extension:], [about:], [file:],
    [data:], [blob:] or contains one of [localhost], [127.0.0.1], [.local]
    anywhere in it; the pages that the wording of the specification
    excludes are among them. The four addresses of the specification are
    skipped and [https://example.com/article] is not. *)
Theorem skipped_addresses :
  (∀ w, browsingDigestLoaded w = false →
     (run w = Skipped ↔
        (∃ scheme rest,
            scheme ∈ excluded_schemes ∧ href w = lit scheme ++ rest) ∨
        (∃ word before after,
            word ∈ excluded_words ∧
            href w = before ++ lit word ++ after))) ∧
  (∀ w, browsingDigestLoaded w = false →
     (∃ before after, href w = before ++ hostname w ++ after) →
     excluded_as_specified w = true → run w = Skipped) ∧
  shouldSkip (lit "chrome-extension://abc/page") = true ∧
  shouldSkip (lit "about:blank") = true ∧
  shouldSkip (lit "http://localhost:3000") = true ∧
  shouldSkip (lit "http://127.0.0.1/x") = true ∧
  shouldSkip (lit "https://example.com/article") = false ∧
  (∀ w, browsingDigestLoaded w = false →
     href w = lit "https://example.com/article" →
     run w ≠ Skipped ∧
     (∀ text, extractMainContent (document w) = Some text →
        (100 < length text)%nat → ∃ data, run w = Sent data)).
Proof.
  split.
  { intros w Hl. rewrite (run_Skipped w Hl). apply shouldSkip_iff. }
  split.
  { intros w Hl Hhost Hspec. apply (run_Skipped w Hl).
    by apply specified_exclusions_are_skipped. }
  do 5 (split; [vm_compute; reflexivity|]).
  intros w Hl Hhref. split.
  - rewrite (run_Skipped w Hl), Hhref. vm_compute. discriminate.
  - intros text Htext Hlen. unfold run, extractPageData.
    rewrite Hl, Hhref, Htext.
    change (shouldSkip (lit "https://example.com/article")) with false.
    cbn [content].
    destruct (Nat.ltb_spec 100 (length text)); [by eexists | lia].
Qed.

(** A page at [https://example.com/article] with 300 letters is sent on. *)
Lemma skipped_addresses_witness :
  browsingDigestLoaded (window_on (page [TextNode (replicate 300 97)]))
    = false ∧
  ∃ data, run (window_on (page [TextNode (replicate 300 97)])) = Sent data.
Proof.
  split; [reflexivity|].
  destruct skipped_addresses as (_ & _ & _ & _ & _ & _ & _ & Hsent).
  destruct (Hsent (window_on (page [TextNode (replicate 300 97)]))
              eq_refl eq_refl) as [_ Hrun].
  apply (Hrun (replicate 300 97)).
  - vm_compute; reflexivity.
  - rewrite length_replicate. lia.
Defined.

End EligibilityGate.

(** ** The record store: appending *)

Section Append.

Implicit Types (history : list Obj) (entry pageData : Obj) (env : Env)
  (st : Storage).

Lemma slice_last_length {A} n (l : list A) :
  length (slice_last n l) = (length l `min` n)%nat.
Proof. unfold slice_last. rewrite length_drop. lia. Qed.

(** [slice(-n)] keeps a suffix. *)
Lemma slice_last_suffix {A} n (l : list A) :
  take (length l - n) l ++ slice_last n l = l.
Proof. apply take_drop. Qed.

Lemma slice_last_all {A} n (l : list A) :
  (length l ≤ n)%nat → slice_last n l = l.
Proof.
  intros Hle. unfold slice_last.
  by replace (length l - n)%nat with 0%nat by lia.
Qed.

Lemma slice_last_app {A} n (l k : list A) :
  slice_last n (slice_last n l ++ k) = slice_last n (l ++ k).
Proof.
  destruct (Nat.le_gt_cases (length l) n) as [Hle|Hgt].
  - by rewrite (slice_last_all n l).
  - unfold slice_last at 1 3. rewrite !length_app, slice_last_length.
    unfold slice_last. rewrite !drop_app, drop_drop, length_drop.
    f_equal; f_equal; lia.
Qed.

Lemma pushed_history_slice history entry :
  pushed_history history entry = slice_last MAX_ENTRIES (history ++ [entry]).
Proof.
  unfold pushed_history.
  destruct (Nat.ltb_spec MAX_ENTRIES (length (history ++ [entry])));
    [done | by rewrite slice_last_all].
Qed.

Lemma pushed_history_last history entry :
  last (pushed_history history entry) = Some entry.
Proof.
  assert (Hmax : (1 ≤ MAX_ENTRIES)%nat) by (unfold MAX_ENTRIES; lia).
  rewrite pushed_history_slice. unfold slice_last.
  rewrite drop_app, length_app. simpl.
  replace (length history + 1 - MAX_ENTRIES - length history)%nat
    with 0%nat by lia.
  by rewrite drop_0, last_snoc.
Qed.

Lemma stored_history_insert st history :
  stored_history (<[STORAGE_KEY := history]> st) = history.
Proof. unfold stored_history. by rewrite lookup_insert_eq. Qed.

Lemma savePageData_ok pageData env st :
  getError env = None → setError env = None →
  savePageData pageData env st =
    (Resolved tt,
     <[STORAGE_KEY :=
         pushed_history (stored_history st) (new_entry pageData env)]> st).
Proof. intros Hg Hs. unfold savePageData. by rewrite Hg, Hs. Qed.

(** A failed read or write rejects the promise and leaves the store as it
    was. *)
Lemma savePageData_failed pageData env st :
  getError env ≠ None ∨ setError env ≠ None →
  ∃ message, savePageData pageData env st = (Rejected message, st).
Proof.
  unfold savePageData. intros [Hg|Hs].
  - destruct (getError env) as [m|]; [by exists m | done].
  - destruct (getError env) as [m|]; [by exists m|].
    destruct (setError env) as [m|]; [by exists m | done].
Qed.

Lemma save_each_history captures st :
  Forall calm_env captures →
  (length (stored_history st) ≤ MAX_ENTRIES)%nat →
  stored_history (save_each captures st) =
    slice_last MAX_ENTRIES
      (stored_history st ++ map (fun c => new_entry c.1 c.2) captures).
Proof.
  revert st. induction captures as [|[pageData env] rest IH]; intros st Hcalm Hlen.
  - simpl. rewrite app_nil_r. by rewrite slice_last_all.
  - apply Forall_cons in Hcalm as [[Hg Hs] Hcalm]. simpl in Hg, Hs.
    cbn [save_each]. rewrite savePageData_ok by done. cbn [snd].
    rewrite IH; [|done|].
    + rewrite stored_history_insert, pushed_history_slice, slice_last_app.
      by rewrite <- app_assoc.
    + rewrite stored_history_insert, pushed_history_slice, slice_last_length.
      lia.
Qed.

(** C2 (eviction). A successful append leaves at most [MAX_ENTRIES]
    entries: the stored sequence followed by the new entry, without its
    oldest entries when that is more than [MAX_ENTRIES] long, in which case
    exactly [MAX_ENTRIES] entries are kept. After 501 appends to an empty
    store, the store holds the 500 entries that follow the first one. *)
Theorem append_keeps_most_recent :
  (∀ pageData env st,
     getError env = None → setError env = None →
     ∃ st', savePageData pageData env st = (Resolved tt, st') ∧
       let old := stored_history st in
       let entry := new_entry pageData env in
       let new := stored_history st' in
       (length new ≤ MAX_ENTRIES)%nat ∧
       (∃ dropped, old ++ [entry] = dropped ++ new ∧
                   length new = (S (length old) `min` MAX_ENTRIES)%nat) ∧
       last new = Some entry ∧
       (S (length old) ≤ MAX_ENTRIES → new = old ++ [entry])%nat ∧
       (MAX_ENTRIES < S (length old) →
          length new = MAX_ENTRIES ∧
          new = drop (S (length old) - MAX_ENTRIES) (old ++ [entry]))%nat) ∧
  (∀ captures st first rest,
     Forall calm_env captures →
     length captures = S MAX_ENTRIES →
     stored_history st = [] →
     map (fun c => new_entry c.1 c.2) captures = first :: rest →
     stored_history (save_each captures st) = rest ∧
     length rest = MAX_ENTRIES).
Proof.
  assert (Hmax : (1 ≤ MAX_ENTRIES)%nat) by (unfold MAX_ENTRIES; lia).
  split.
  - intros pageData env st Hg Hs.
    eexists. split; [by apply savePageData_ok|].
    cbn zeta. rewrite stored_history_insert, pushed_history_slice.
    set (old := stored_history st). set (entry := new_entry pageData env).
    assert (Hlen : length (old ++ [entry]) = S (length old))
      by (rewrite length_app; simpl; lia).
    split; [rewrite slice_last_length; lia|].
    split.
    { exists (take (length (old ++ [entry]) - MAX_ENTRIES) (old ++ [entry])).
      split; [by rewrite slice_last_suffix|].
      by rewrite slice_last_length, Hlen. }
    split; [rewrite <- pushed_history_slice; apply pushed_history_last|].
    split; [intros Hle; apply slice_last_all; lia|].
    intros Hgt. split; [rewrite slice_last_length; lia|].
    unfold slice_last. by rewrite Hlen.
  - intros captures st first rest Hcalm Hcount Hempty Heq.
    assert (Hlen : length (first :: rest) = S MAX_ENTRIES)
      by (by rewrite <- Heq, length_map).
    split; [|simpl in Hlen; lia].
    rewrite save_each_history, Hempty, Heq; [|done|rewrite Hempty; simpl; lia].
    rewrite app_nil_l. unfold slice_last. rewrite Hlen.
    by replace (S MAX_ENTRIES - MAX_ENTRIES)%nat with 1%nat by lia.
Qed.

(** The 501 numbered captures, saved to the empty storage. *)
Lemma append_keeps_most_recent_witness :
  Forall calm_env many_captures ∧
  length many_captures = S MAX_ENTRIES ∧
  stored_history (∅ : Storage) = [] ∧
  stored_history (save_each many_captures ∅) =
    map (fun c => new_entry c.1 c.2)
      (map numbered (seq 1 MAX_ENTRIES)) ∧
  length (map (fun c => new_entry c.1 c.2)
            (map numbered (seq 1 MAX_ENTRIES))) = MAX_ENTRIES.
Proof.
  assert (Hcalm : Forall calm_env many_captures).
  { unfold many_captures. apply Forall_map. by apply Forall_true. }
  assert (Hlen : length many_captures = S MAX_ENTRIES).
  { unfold many_captures. by rewrite length_map, length_seq. }
  split; [done|]. split; [done|]. split; [done|].
  exact (proj2 append_keeps_most_recent many_captures ∅
           (new_entry (numbered 0).1 (numbered 0).2)
           (map (fun c => new_entry c.1 c.2)
              (map numbered (seq 1 MAX_ENTRIES)))
           Hcalm Hlen eq_refl eq_refl).
Defined.

End Append.

(** ** From the page to the store *)

Section StoredContent.

Implicit Types (p : PageData) (pageData entry : Obj) (env : Env)
  (st : Storage).

(** The entry keeps the fields of the page data, apart from [id] and
    [savedAt]. *)
Lemma new_entry_get pageData env k :
  k ≠ "id" → k ≠ "savedAt" →
  get (new_entry pageData env) k = get pageData k.
Proof.
  intros Hid Hsaved. unfold get, new_entry.
  by rewrite !lookup_insert_ne.
Qed.

Lemma toObj_content p : get (toObj p) "content" = VStr (content p).
Proof. reflexivity. Qed.

(** The content of the entry appended for a page is the text that was
    extracted from it. *)
Lemma stored_content p env st :
  getError env = None → setError env = None →
  ∃ st' entry,
    savePageData (toObj p) env st = (Resolved tt, st') ∧
    last (stored_history st') = Some entry ∧
    get entry "content" = VStr (content p).
Proof.
  intros Hg Hs. eexists _, (new_entry (toObj p) env).
  split; [by apply savePageData_ok|].
  rewrite stored_history_insert. split; [apply pushed_history_last|].
  by rewrite new_entry_get, toObj_content.
Qed.

(** C1 (truncation). The text returned by [extractMainContent] is at most
    [maxLength + 15] code units long; a cleaned text of more than
    [maxLength] code units is cut to its first [maxLength] code units, the
    marker is appended, and the result is [maxLength + 15] long. The page
    whose text is one word of 5001 letters gets a content of 5015 code
    units, more than the 5000 that the source announces; it is sent on and
    it is appended to the store with that content. *)
Theorem truncated_content_exceeds_maxLength :
  (∀ d text, extractMainContent d = Some text →
     (length text ≤ maxLength + 15)%nat) ∧
  (∀ text, (maxLength < length text)%nat →
     truncate text = take maxLength text ++ truncation_marker ∧
     length (truncate text) = (maxLength + 15)%nat) ∧
  extractMainContent long_page =
    Some (replicate maxLength 97 ++ truncation_marker) ∧
  (∃ data,
     run (window_on long_page) = Sent data ∧
     content data = replicate maxLength 97 ++ truncation_marker ∧
     length (content data) = (maxLength + 15)%nat ∧
     (maxLength < length (content data))%nat ∧
     ∀ env st, getError env = None → setError env = None →
       ∃ st' entry,
         savePageData (toObj data) env st = (Resolved tt, st') ∧
         last (stored_history st') = Some entry ∧
         get entry "content" = VStr (content data)).
Proof.
  split; [|split; [|split]].
  - intros d text (el & _ & ->)%extractMainContent_Some.
    apply truncate_length.
  - intros text Hlt.
    split; [by apply truncate_long | by apply truncate_long_length].
  - vm_compute. reflexivity.
  - eexists. split; [vm_compute; reflexivity|].
    split; [vm_compute; reflexivity|].
    assert (Hlen : length (replicate maxLength 97 ++ truncation_marker)
                   = (maxLength + 15)%nat)
      by (by rewrite length_app, length_replicate, truncation_marker_length).
    split; [exact Hlen|]. split; [|intros env st; apply stored_content].
    change (maxLength <
            length (replicate maxLength 97%N ++ truncation_marker))%nat.
    rewrite Hlen. lia.
Qed.

End StoredContent.

(** ** The record store: query, export and clear *)

Section Queries.

Variable toDateString : Val → jsstring.

Implicit Types (date : Val) (entry : Obj) (env : Env) (st : Storage).

Lemma getHistory_ok date env st :
  getError env = None →
  getHistory toDateString date env st =
    Resolved (if truthy date
              then filter (same_day toDateString date) (stored_history st)
              else stored_history st).
Proof. intros Hg. unfold getHistory. by rewrite Hg. Qed.

Lemma getHistory_failed date env st message :
  getError env = Some message →
  getHistory toDateString date env st = Rejected message.
Proof. intros Hg. unfold getHistory. by rewrite Hg. Qed.

(** C3 (query). Without a date the stored captures are returned as they
    are stored. With a date the result is the subsequence of the stored
    captures whose timestamp has the date text of the given day; it is
    empty when no capture is of that day. *)
Theorem query_by_day date env st :
  getError env = None →
  ∃ result,
    getHistory toDateString date env st = Resolved result ∧
    (truthy date = false → result = stored_history st) ∧
    (truthy date = true →
       result = filter (same_day toDateString date) (stored_history st) ∧
       result `sublist_of` stored_history st ∧
       (∀ entry, entry ∈ result ↔
          entry ∈ stored_history st ∧
          toDateString (get entry "timestamp") = toDateString date) ∧
       ((∀ entry, entry ∈ stored_history st →
           toDateString (get entry "timestamp") ≠ toDateString date) →
        result = [])).
Proof.
  intros Hg. eexists. split; [by apply getHistory_ok|].
  split; [by intros ->|]. intros ->.
  split; [done|]. split; [apply sublist_filter|]. split.
  - intros entry. rewrite list_elem_of_filter. unfold same_day. tauto.
  - intros Hnone. induction (stored_history st) as [|e l IH]; [done|].
    rewrite filter_cons_False.
    + apply IH. intros entry Hin. apply Hnone. by right.
    + apply Hnone. by left.
Qed.

Lemma clearHistory_all date env st :
  truthy date = false → setError env = None →
  clearHistory toDateString date env st =
    (Resolved tt, <[STORAGE_KEY := []]> st).
Proof. intros Hd Hs. unfold clearHistory. by rewrite Hd, Hs. Qed.

Lemma clearHistory_day date env st :
  truthy date = true → getError env = None → setError env = None →
  clearHistory toDateString date env st =
    (Resolved tt,
     <[STORAGE_KEY :=
         filter (fun entry => ¬ same_day toDateString date entry)
           (stored_history st)]> st).
Proof. intros Hd Hg Hs. unfold clearHistory. by rewrite Hd, Hg, Hs. Qed.

Lemma filter_same_day_cleared date (l : list Obj) :
  filter (same_day toDateString date)
    (filter (fun entry => ¬ same_day toDateString date entry) l) = [].
Proof.
  induction l as [|e l IH]; [done|].
  destruct (decide (same_day toDateString date e)) as [Hd|Hd].
  - by rewrite (filter_cons_False _ e l) by tauto.
  - rewrite (filter_cons_True _ e l) by done. by rewrite filter_cons_False.
Qed.

Lemma filter_other_day_kept date date' (l : list Obj) :
  toDateString date' ≠ toDateString date →
  filter (same_day toDateString date')
    (filter (fun entry => ¬ same_day toDateString date entry) l) =
  filter (same_day toDateString date') l.
Proof.
  intros Hne. induction l as [|e l IH]; [done|].
  destruct (decide (same_day toDateString date e)) as [Hd|Hd].
  - rewrite (filter_cons_False _ e l) by tauto.
    rewrite (filter_cons_False (same_day toDateString date') e l); [done|].
    unfold same_day in *. congruence.
  - rewrite (filter_cons_True _ e l) by done.
    by rewrite !filter_cons, IH.
Qed.

(** C4 (clear). Without a date the store is replaced by the empty
    sequence. With a date, the captures of that day are removed and the
    others stay, in their order: what remains and what a query of that day
    returned make up the old store, a query of that day now returns
    nothing, and a query of another day returns what it returned before. *)
Theorem clear_by_day date env st :
  setError env = None →
  (truthy date = false →
     ∃ st', clearHistory toDateString date env st = (Resolved tt, st') ∧
            stored_history st' = []) ∧
  (truthy date = true → getError env = None →
     ∃ st', clearHistory toDateString date env st = (Resolved tt, st') ∧
       let old := stored_history st in
       let new := stored_history st' in
       new = filter (fun entry => ¬ same_day toDateString date entry) old ∧
       new `sublist_of` old ∧
       (∀ entry, entry ∈ new ↔
          entry ∈ old ∧
          toDateString (get entry "timestamp") ≠ toDateString date) ∧
       filter (same_day toDateString date) old ++ new ≡ₚ old ∧
       getHistory toDateString date env st' = Resolved [] ∧
       (∀ date', truthy date' = true →
          toDateString date' ≠ toDateString date →
          getHistory toDateString date' env st' =
          getHistory toDateString date' env st)).
Proof.
  intros Hs. split.
  - intros Hd. eexists. split; [by apply clearHistory_all|].
    apply stored_history_insert.
  - intros Hd Hg. eexists. split; [by apply clearHistory_day|].
    cbn zeta. rewrite stored_history_insert.
    split; [done|]. split; [apply sublist_filter|]. split; [|split; [|split]].
    + intros entry. rewrite list_elem_of_filter. unfold same_day. tauto.
    + apply filter_app_complement.
    + rewrite getHistory_ok, Hd, stored_history_insert by done.
      by rewrite filter_same_day_cleared.
    + intros date' Hd' Hne.
      rewrite !getHistory_ok, Hd', stored_history_insert by done.
      by rewrite filter_other_day_kept.
Qed.

Lemma export_page_dom entry : dom (export_page entry) = exported_fields.
Proof.
  unfold export_page, exported_fields.
  rewrite !dom_insert_L, dom_empty_L. set_solver.
Qed.

Lemma export_page_get entry k :
  k ∈ exported_fields → get (export_page entry) k = get entry k.
Proof.
  unfold exported_fields, export_page, get at 1. intros Hk.
  repeat (apply elem_of_union in Hk as [Hk|Hk]);
    apply elem_of_singleton in Hk as ->; by simplify_map_eq.
Qed.

(** C5 (export). The export of a day counts and lists the result of the
    query of that day; each page has exactly the fields [url], [title],
    [content], [timestamp], [domain] and [readingTime], with the values of
    the capture, and so neither [id] nor [savedAt]; the [date] field is the
    requested day, or ["all"] without one. *)
Theorem export_of_query date env st :
  getError env = None →
  ∃ doc history,
    exportData toDateString date env st = Resolved doc ∧
    getHistory toDateString date env st = Resolved history ∧
    totalPages doc = length history ∧
    pages doc = map export_page history ∧
    length (pages doc) = totalPages doc ∧
    (∀ i entry, history !! i = Some entry →
       ∃ page, pages doc !! i = Some page ∧
         dom page = exported_fields ∧
         page !! "id" = None ∧ page !! "savedAt" = None ∧
         (∀ k, k ∈ exported_fields → get page k = get entry k)) ∧
    (truthy date = true → Background.date doc = date) ∧
    (truthy date = false → Background.date doc = VStr (lit "all")) ∧
    exportedAt doc = Background.isoNow env.
Proof.
  intros Hg. unfold exportData. rewrite getHistory_ok by done.
  eexists _, _. split; [done|]. split; [done|]. cbn.
  split; [done|]. split; [done|]. split; [by rewrite length_map|].
  split; [|split; [|split]].
  - intros i entry Hi. exists (export_page entry).
    split; [by rewrite list_lookup_fmap, Hi|].
    split; [apply export_page_dom|].
    split; [by apply not_elem_of_dom; rewrite export_page_dom|].
    split; [by apply not_elem_of_dom; rewrite export_page_dom|].
    apply export_page_get.
  - unfold or_else. by intros ->.
  - unfold or_else. by intros ->.
  - done.
Qed.

End Queries.

(** *** The store with three captures, with days read in UTC *)

Section ThreeCaptures.

(** Two of the three captures are of 5 February. *)
Lemma query_by_day_witness :
  getError quiet = None ∧
  ∃ result, getHistory utc_day feb5 quiet three_captures = Resolved result ∧
            length result = 2%nat.
Proof.
  split; [reflexivity|].
  destruct (query_by_day utc_day feb5 quiet three_captures eq_refl)
    as (result & Hres & _ & Hfeb).
  exists result. split; [exact Hres|].
  destruct (Hfeb eq_refl) as (-> & _). vm_compute. reflexivity.
Defined.

(** Clearing 5 February leaves the capture of 6 February. *)
Lemma clear_by_day_witness :
  setError quiet = None ∧ truthy feb5 = true ∧ getError quiet = None ∧
  ∃ st', clearHistory utc_day feb5 quiet three_captures = (Resolved tt, st') ∧
         length (stored_history st') = 1%nat ∧
         getHistory utc_day feb5 quiet st' = Resolved [].
Proof.
  split; [reflexivity|]. split; [reflexivity|]. split; [reflexivity|].
  destruct (clear_by_day utc_day feb5 quiet three_captures eq_refl)
    as [_ Hfeb].
  destruct (Hfeb eq_refl eq_refl) as (st' & Hclear & Hnew & _ & _ & _ & Hq & _).
  exists st'. split; [exact Hclear|]. split; [|exact Hq].
  cbn zeta in Hnew. rewrite Hnew. vm_compute. reflexivity.
Defined.

(** The export of 5 February has two pages. *)
Lemma export_of_query_witness :
  getError quiet = None ∧
  ∃ doc, exportData utc_day feb5 quiet three_captures = Resolved doc ∧
         totalPages doc = 2%nat ∧ Background.date doc = feb5.
Proof.
  split; [reflexivity|].
  destruct (export_of_query utc_day feb5 quiet three_captures eq_refl)
    as (doc & history & Hdoc & Hhist & Htotal & _ & _ & _ & Hdate & _).
  exists doc. split; [exact Hdoc|]. split; [|exact (Hdate eq_refl)].
  rewrite Htotal.
  rewrite (getHistory_ok utc_day feb5 quiet three_captures eq_refl) in Hhist.
  injection Hhist as <-. vm_compute. reflexivity.
Defined.

End ThreeCaptures.

(** ** The cleaned text as joined tokens *)

Section JoinedTokens.

Implicit Types (s t cur text : jsstring) (c : N) (ts : list jsstring).

Lemma ends_in_ws_cons dflt c s :
  ends_in_ws dflt (c :: s) = ends_in_ws (is_ws c) s.
Proof. unfold ends_in_ws. rewrite last_cons. by destruct (last s). Qed.

Lemma tokens_from_Some_cons cur s :
  ∃ t ts, tokens_from (Some cur) s = t :: ts.
Proof.
  revert cur. induction s as [|c r IH]; intros cur; simpl; [by eexists _, _|].
  destruct (is_ws c); [by eexists _, _ | apply IH].
Qed.

(** The first replacement writes the tokens, a space before each one but
    the first of the text, and a space for the whitespace that ends it. *)
Lemma replace_ws_runs_tokens s :
  (∀ cur, cur ++ replace_ws_runs false s =
          join_with_spaces (tokens_from (Some cur) s)
          ++ trail (ends_in_ws false s)) ∧
  (SPACE :: replace_ws_runs true s =
     prefixed_by_space (tokens_from None s) ++ trail (ends_in_ws true s)).
Proof.
  induction s as [|c r [IHtok IHrun]].
  - split; [intros cur; simpl; by rewrite !app_nil_r | done].
  - split.
    + intros cur. rewrite ends_in_ws_cons. simpl.
      destruct (is_ws c) eqn:Hc.
      * simpl. rewrite IHrun. by rewrite app_assoc.
      * rewrite <- IHtok. by rewrite <- app_assoc.
    + rewrite ends_in_ws_cons. simpl. destruct (is_ws c) eqn:Hc; [done|].
      specialize (IHtok [c]).
      destruct (tokens_from_Some_cons [c] r) as (t & ts & Hts).
      rewrite Hts in IHtok |- *. simpl in IHtok |- *.
      by rewrite <- IHtok.
Qed.

Lemma tokens_from_are_tokens s :
  (∀ cur, is_token cur → Forall is_token (tokens_from (Some cur) s)) ∧
  Forall is_token (tokens_from None s).
Proof.
  induction s as [|c r [IHtok IHrun]].
  - split; [intros cur Hcur; by constructor | constructor].
  - split.
    + intros cur [Hne Hcur]. simpl. destruct (is_ws c) eqn:Hc.
      * by constructor.
      * apply IHtok. split; [by destruct cur|].
        apply Forall_app. split; [done | by constructor].
    + simpl. destruct (is_ws c) eqn:Hc; [done|].
      apply IHtok. split; [done | by constructor].
Qed.

Lemma trimStart_ws_prefix pre s :
  Forall (fun c => is_ws c = true) pre → trimStart (pre ++ s) = trimStart s.
Proof.
  induction pre as [|a pre IH]; intros Hpre; [done|].
  apply Forall_cons in Hpre as [Ha Hpre]. simpl. rewrite Ha. by apply IH.
Qed.

Lemma trimStart_id s :
  (∀ c, head s = Some c → is_ws c = false) → trimStart s = s.
Proof.
  destruct s as [|a r]; [done|]. intros Hhd. simpl.
  by rewrite (Hhd a eq_refl).
Qed.

Lemma trimStart_all_ws s :
  Forall (fun c => is_ws c = true) s → trimStart s = [].
Proof.
  induction s as [|a r IH]; intros Hs; [done|].
  apply Forall_cons in Hs as [Ha Hs]. simpl. rewrite Ha. by apply IH.
Qed.

Lemma trim_between pre s post :
  Forall (fun c => is_ws c = true) pre →
  Forall (fun c => is_ws c = true) post →
  clean_ends s → trim (pre ++ s ++ post) = s.
Proof.
  intros Hpre Hpost [Hhd Hlast]. unfold trim, trimEnd.
  rewrite trimStart_ws_prefix by done.
  destruct s as [|a r].
  - simpl. rewrite (trimStart_all_ws post) by done. reflexivity.
  - rewrite (trimStart_id ((a :: r) ++ post))
      by (simpl; intros c Hc; injection Hc as <-; by apply Hhd).
    rewrite reverse_app, trimStart_ws_prefix by (by apply Forall_reverse).
    rewrite trimStart_id; [apply reverse_involutive|].
    intros c. rewrite head_reverse. apply Hlast.
Qed.

Lemma token_last t c : is_token t → last t = Some c → is_ws c = false.
Proof.
  intros [_ Ht] Hl. apply last_Some_elem_of in Hl.
  by apply (proj1 (Forall_forall _ _) Ht).
Qed.

Lemma prefixed_by_space_last ts c :
  Forall is_token ts →
  last (prefixed_by_space ts) = Some c → is_ws c = false.
Proof.
  induction ts as [|t ts IH]; intros Htok; [done|].
  apply Forall_cons in Htok as [Ht Htok].
  change (prefixed_by_space (t :: ts))
    with ((SPACE :: t) ++ prefixed_by_space ts).
  rewrite last_app. destruct (last (prefixed_by_space ts)) as [y|].
  - intros [= <-]. by apply IH.
  - destruct t as [|a t]; [by destruct Ht|].
    rewrite last_cons_cons. by apply token_last.
Qed.

Lemma join_with_spaces_last t ts c :
  Forall is_token (t :: ts) →
  last (t ++ prefixed_by_space ts) = Some c → is_ws c = false.
Proof.
  intros [Ht Htok]%Forall_cons. rewrite last_app.
  destruct (last (prefixed_by_space ts)) as [y|] eqn:Hy.
  - intros [= <-]. by apply (prefixed_by_space_last ts).
  - by apply token_last.
Qed.

Lemma join_with_spaces_clean_ends ts :
  Forall is_token ts → clean_ends (join_with_spaces ts).
Proof.
  destruct ts as [|t ts]; intros Htok; [by split|]. split.
  - pose proof Htok as [[Hne Ht] _]%Forall_cons. simpl.
    destruct t as [|a t]; [done|]. simpl. intros c [= <-].
    by apply Forall_cons in Ht as [? _].
  - intros c. by apply join_with_spaces_last.
Qed.

(** The cleaned text is the sequence of the tokens of the text, joined by
    single spaces. *)
Lemma clean_whitespace_join text :
  clean_whitespace text = join_with_spaces (whitespace_tokens text).
Proof.
  rewrite clean_whitespace_unfold. unfold whitespace_tokens.
  destruct text as [|c r]; [done|].
  destruct (replace_ws_runs_tokens r) as [Htok Hrun].
  pose proof (tokens_from_are_tokens r) as [Htoks Hruns].
  simpl. destruct (is_ws c) eqn:Hc.
  - rewrite Hrun.
    destruct (tokens_from None r) as [|t ts] eqn:Hts.
    + simpl. by destruct (ends_in_ws true r).
    + change (prefixed_by_space (t :: ts))
        with ([SPACE] ++ join_with_spaces (t :: ts)).
      rewrite <- app_assoc. apply trim_between.
      * by constructor.
      * destruct (ends_in_ws true r); by repeat constructor.
      * by apply join_with_spaces_clean_ends.
  - change (c :: replace_ws_runs false r)
      with ([c] ++ replace_ws_runs false r).
    rewrite (Htok [c]).
    apply (trim_between [] _ (trail (ends_in_ws false r))).
    + constructor.
    + destruct (ends_in_ws false r); by repeat constructor.
    + apply join_with_spaces_clean_ends, Htoks.
      split; [done | by constructor].
Qed.

Lemma tokens_from_token cur t s :
  Forall (fun c => is_ws c = false) t →
  tokens_from (Some cur) (t ++ s) = tokens_from (Some (cur ++ t)) s.
Proof.
  revert cur. induction t as [|a t IH]; intros cur Ht; simpl.
  - by rewrite app_nil_r.
  - apply Forall_cons in Ht as [Ha Ht]. rewrite Ha. simpl.
    rewrite IH by done. by rewrite <- app_assoc.
Qed.

Lemma tokens_from_prefixed t ts :
  Forall is_token ts →
  tokens_from (Some t) (prefixed_by_space ts) = t :: ts.
Proof.
  revert t. induction ts as [|t' ts IH]; intros t Htok; [done|].
  apply Forall_cons in Htok as [[Hne Ht'] Htok]. simpl. f_equal.
  destruct t' as [|a t']; [done|].
  apply Forall_cons in Ht' as [Ha Ht']. simpl. rewrite Ha. simpl.
  rewrite tokens_from_token by done. by apply IH.
Qed.

Lemma tokens_of_join ts :
  Forall is_token ts → whitespace_tokens (join_with_spaces ts) = ts.
Proof.
  destruct ts as [|t ts]; intros Htok; [done|].
  apply Forall_cons in Htok as [[Hne Ht] Htok].
  unfold whitespace_tokens. simpl.
  destruct t as [|a t]; [done|].
  apply Forall_cons in Ht as [Ha Ht]. simpl. rewrite Ha. simpl.
  rewrite tokens_from_token by done. by apply tokens_from_prefixed.
Qed.

End JoinedTokens.

(** ** More on the extracted text *)

Section ExtractedText.

Implicit Types (s t cur text : jsstring) (c : N) (w : Window)
  (p : PageData).

(** X1 (cleaned text). The cleaned text is the sequence of the
    whitespace-delimited tokens of the text, joined by single spaces; each
    token is a non-empty run without whitespace. *)
Theorem cleaned_text_is_joined_tokens text :
  clean_whitespace text = join_with_spaces (whitespace_tokens text) ∧
  Forall is_token (whitespace_tokens text).
Proof.
  split; [apply clean_whitespace_join | apply tokens_from_are_tokens].
Qed.

(** X2 (cleaning twice). Cleaning a cleaned text changes nothing, and
    cleaning never changes the tokens of a text. *)
Theorem cleaning_is_idempotent text :
  clean_whitespace (clean_whitespace text) = clean_whitespace text ∧
  whitespace_tokens (clean_whitespace text) = whitespace_tokens text.
Proof.
  assert (Htok : whitespace_tokens (clean_whitespace text)
                 = whitespace_tokens text).
  { rewrite clean_whitespace_join.
    apply tokens_of_join, tokens_from_are_tokens. }
  split; [|exact Htok].
  by rewrite (clean_whitespace_join (clean_whitespace text)), Htok,
    <- clean_whitespace_join.
Qed.

(** X3 (whitespace of the cleaned text). The cleaned text neither starts
    nor ends with whitespace, its only whitespace is the space, and a space
    is always followed by something that is not whitespace. *)
Theorem cleaned_text_whitespace text :
  (∀ c, head (clean_whitespace text) = Some c → is_ws c = false) ∧
  (∀ c, last (clean_whitespace text) = Some c → is_ws c = false) ∧
  (∀ c, c ∈ clean_whitespace text → is_ws c = true → c = SPACE) ∧
  (∀ pre a b post,
     clean_whitespace text = pre ++ a :: b :: post →
     is_ws a = true → a = SPACE ∧ is_ws b = false).
Proof.
  destruct (clean_whitespace_ends text) as [Hhd Hlast].
  split; [exact Hhd|]. split; [exact Hlast|].
  split; [apply clean_whitespace_only_spaces|].
  intros pre a b post Heq Ha. split.
  - apply (clean_whitespace_only_spaces text); [|done].
    rewrite Heq. set_solver.
  - by apply (clean_whitespace_collapsed text pre a b post).
Qed.

(** X4 (truncation). Truncation keeps the first [maxLength] code units of
    the text, and truncating twice is truncating once. The texts that
    truncation leaves unchanged are those of at most [maxLength] code units
    and those made of [maxLength] code units followed by the marker. *)
Theorem truncate_keeps_prefix text :
  take maxLength (truncate text) = take maxLength text ∧
  truncate (truncate text) = truncate text ∧
  (truncate text = text ↔
     (length text ≤ maxLength)%nat ∨
     text = take maxLength text ++ truncation_marker).
Proof.
  destruct (Nat.le_gt_cases (length text) maxLength) as [Hle|Hgt].
  - rewrite !truncate_short by done. split; [done|]. split; [done|].
    split; [by left | done].
  - assert (Hlen : length (take maxLength text) = maxLength)
      by (apply length_take_le; lia).
    assert (Htake : take maxLength (take maxLength text ++ truncation_marker)
                    = take maxLength text).
    { rewrite take_app_le by lia. apply take_ge. lia. }
    split; [by rewrite truncate_long|]. split.
    + rewrite (truncate_long (truncate text))
        by (rewrite truncate_long_length by done; lia).
      rewrite (truncate_long text) by done. by rewrite Htake.
    + rewrite truncate_long by done. split.
      * intros Heq. by right.
      * intros [Hle|Heq]; [lia | done].
Qed.

(** Each piece of the split but the first costs a whitespace code unit,
    and each but the first two also a code unit that is not whitespace. *)
Lemma split_ws_length_bound s :
  (∀ cur, 2 * length (split_ws false cur s) ≤ length s + 3)%nat ∧
  (∀ cur, 2 * length (split_ws true cur s) ≤ length s + 2)%nat.
Proof.
  induction s as [|c r [IHtok IHrun]]; [split; intros; simpl; lia|].
  split; intros cur; simpl; destruct (is_ws c).
  - simpl. specialize (IHrun []). lia.
  - specialize (IHtok (cur ++ [c])). lia.
  - specialize (IHrun []). lia.
  - specialize (IHtok (cur ++ [c])). lia.
Qed.

Lemma extractMainContent_length d text :
  extractMainContent d = Some text → (length text ≤ maxLength + 15)%nat.
Proof.
  intros (el & _ & ->)%extractMainContent_Some. apply truncate_length.
Qed.

(** X5 (bounds of the estimate). For every page, twice the word count is at
    most the length of the content plus 3; as the content is at most
    [maxLength + 15] long, the word count is at most 2509 and the reading
    time is between 1 and 13 minutes. *)
Theorem reading_time_is_bounded w p :
  extractPageData w = Some p →
  (2 * wordCount p ≤ Z.of_nat (length (content p)) + 3)%Z ∧
  (1 ≤ wordCount p ≤ 2509)%Z ∧
  (1 ≤ readingTime p ≤ 13)%Z.
Proof.
  intros (Hc & Hw & Hr)%extractPageData_Some.
  pose proof (extractMainContent_length _ _ Hc) as Hlen.
  pose proof (proj1 (split_ws_length_bound (content p)) []) as Hsplit.
  pose proof (split_ws_length_pos false [] (content p)) as Hpos.
  fold (split_whitespace (content p)) in Hsplit, Hpos.
  pose proof (ceil_div_200 (wordCount p)) as Hceil. rewrite <- Hr in Hceil.
  assert (Hmax : maxLength = 5000%nat) by reflexivity.
  lia.
Qed.

(** The page with two paragraphs counts two words and one minute. *)
Lemma reading_time_is_bounded_witness :
  ∃ p, extractPageData (window_on paragraphs_page) = Some p ∧
       (1 ≤ wordCount p ≤ 2509)%Z ∧ (1 ≤ readingTime p ≤ 13)%Z.
Proof.
  eexists. split; [vm_compute; reflexivity|].
  exact (proj2 (reading_time_is_bounded
                  (window_on paragraphs_page) _ eq_refl)).
Defined.

(** X6 (untruncated content). When the cleaned text of the main element
    fits in [maxLength], the content of the page is the tokens of the text
    of the main element without its unwanted descendants, joined by single
    spaces, and the word count is their number, or 1 when there is none. *)
Theorem content_is_the_words_of_the_page w p :
  extractPageData w = Some p →
  ∃ mainEl,
    mainElement (document w) = Some mainEl ∧
    let words :=
      whitespace_tokens
        (textContent (remove_descendants removeSelectors mainEl)) in
    ((length (join_with_spaces words) ≤ maxLength)%nat →
       content p = join_with_spaces words ∧
       wordCount p = Z.of_nat (Nat.max 1 (length words))).
Proof.
  intros (Hc & Hw & Hr)%extractPageData_Some.
  apply extractMainContent_Some in Hc as (el & Hel & Hc).
  exists el. split; [done|]. cbn zeta. intros Hfit.
  unfold cleaned_text in Hc. rewrite clean_whitespace_join in Hc.
  rewrite truncate_short in Hc by done.
  split; [done|]. rewrite Hw, Hc.
  set (words := whitespace_tokens
                  (textContent (remove_descendants removeSelectors el))).
  assert (Htok : Forall is_token words) by apply tokens_from_are_tokens.
  destruct words as [|t ts] eqn:Hwords; [done|].
  rewrite split_whitespace_tokens.
  - rewrite tokens_of_join by done. simpl. lia.
  - by apply join_with_spaces_clean_ends.
  - apply Forall_cons in Htok as [[Hne _] _]. simpl. by destruct t.
Qed.

(** The page with two paragraphs: the content is "first second". *)
Lemma content_is_the_words_of_the_page_witness :
  ∃ p, extractPageData (window_on paragraphs_page) = Some p ∧
       content p = lit "first second" ∧ wordCount p = 2%Z.
Proof.
  eexists. split; [vm_compute; reflexivity|].
  destruct (content_is_the_words_of_the_page
              (window_on paragraphs_page) _ eq_refl)
    as (el & Hel & Hwords).
  vm_compute in Hel. injection Hel as <-.
  destruct (Hwords ltac:(vm_compute; lia)) as [Hcontent Hcount].
  split; [exact Hcontent | exact Hcount].
Defined.

End ExtractedText.

(** ** Removal of the unwanted elements *)

Section Removal.

Implicit Types (n k x : Node) (kids : list Node) (sels : list Selector)
  (sel : Selector).

(** Induction on the tree, with the property of all children at hand. *)
Lemma Node_tree_ind (P : Node → Prop) :
  (∀ data, P (TextNode data)) →
  (∀ tag attrs classes kids,
     Forall P kids → P (Element tag attrs classes kids)) →
  ∀ n, P n.
Proof.
  intros Htext Helem. fix IH 1. intros [data|tag attrs classes kids].
  - apply Htext.
  - apply Helem. revert kids. fix IHkids 1. intros [|k kids].
    + constructor.
    + constructor; [apply IH | apply IHkids].
Qed.

(** Removal keeps the tag, the attributes and the classes of the node it is
    applied to. *)
Lemma matches_remove_descendants sels sel n :
  matches sel (remove_descendants sels n) = matches sel n.
Proof. by destruct n. Qed.

Lemma matches_any_remove_descendants sels sels' n :
  matches_any sels' (remove_descendants sels n) = matches_any sels' n.
Proof.
  unfold matches_any. induction sels' as [|sel sels' IH]; [done|].
  simpl. by rewrite matches_remove_descendants, IH.
Qed.

Lemma remove_descendants_clean sels n x :
  x ∈ descendants (remove_descendants sels n) → matches_any sels x = false.
Proof.
  revert x. induction n as [data|tag attrs classes kids HF] using Node_tree_ind;
    intros x Hx; [by apply elem_of_nil in Hx|].
  simpl in Hx. induction HF as [|k kids Hk HF IH]; simpl in Hx.
  - by apply elem_of_nil in Hx.
  - destruct (matches_any sels k) eqn:Hm; [by apply IH|].
    apply elem_of_cons in Hx as [->|Hx].
    + by rewrite matches_any_remove_descendants.
    + apply elem_of_app in Hx as [Hx|Hx]; [by apply Hk | by apply IH].
Qed.

Lemma remove_descendants_text sels n :
  textContent (remove_descendants sels n) `sublist_of` textContent n.
Proof.
  induction n as [data|tag attrs classes kids HF] using Node_tree_ind;
    [done|].
  simpl. induction HF as [|k kids Hk HF IH]; simpl; [done|].
  destruct (matches_any sels k) eqn:Hm.
  - by apply sublist_inserts_l.
  - by apply sublist_app.
Qed.

Lemma remove_descendants_idempotent sels n :
  remove_descendants sels (remove_descendants sels n)
  = remove_descendants sels n.
Proof.
  induction n as [data|tag attrs classes kids HF] using Node_tree_ind;
    [done|].
  simpl. f_equal. induction HF as [|k kids Hk HF IH]; simpl; [done|].
  destruct (matches_any sels k) eqn:Hm; [done|].
  rewrite matches_any_remove_descendants, Hm. by rewrite Hk, IH.
Qed.

Lemma remove_descendants_nothing sels n :
  (∀ x, x ∈ descendants n → matches_any sels x = false) →
  remove_descendants sels n = n.
Proof.
  induction n as [data|tag attrs classes kids HF] using Node_tree_ind;
    intros Hnone; [done|].
  simpl. f_equal. simpl in Hnone.
  induction HF as [|k kids Hk HF IH]; simpl in *; [done|].
  rewrite (Hnone k) by left.
  rewrite Hk, IH; [done| |].
  - intros x Hx. apply Hnone. right. apply elem_of_app. by right.
  - intros x Hx. apply Hnone. right. apply elem_of_app. by left.
Qed.

(** X7 (unwanted elements). After the removal no node below the root
    matches a selector of the list, however deep it was; the text that is
    left is a subsequence of the text there was; the root keeps its tag,
    attributes and classes, even when it matches a selector itself; a
    second removal changes nothing, and neither does the first when nothing
    below the root matches. *)
Theorem removal_cleans_the_subtree sels n :
  (∀ x, x ∈ descendants (remove_descendants sels n) →
        matches_any sels x = false) ∧
  textContent (remove_descendants sels n) `sublist_of` textContent n ∧
  (∀ sel, matches sel (remove_descendants sels n) = matches sel n) ∧
  remove_descendants sels (remove_descendants sels n)
    = remove_descendants sels n ∧
  ((∀ x, x ∈ descendants n → matches_any sels x = false) →
     remove_descendants sels n = n).
Proof.
  split; [apply remove_descendants_clean|].
  split; [apply remove_descendants_text|].
  split; [intros sel; apply matches_remove_descendants|].
  split; [apply remove_descendants_idempotent
         | apply remove_descendants_nothing].
Qed.

End Removal.

(** ** What a run of the content script comes to *)

Section Outcomes.

Implicit Types (w : Window) (data p : PageData).

(** X8 (emission). The page data that is sent is the one extracted from a
    page that is not skipped; its content is more than 100 and at most
    [maxLength + 15] code units long, its address, domain and instant are
    those of the window, and its title is that of the document, or
    "Untitled" when the document has none, so it is never empty. A page is
    dropped exactly when its content is at most 100 code units long. *)
Theorem sent_page_data w :
  (∀ data, run w = Sent data →
     browsingDigestLoaded w = false ∧
     shouldSkip (href w) = false ∧
     extractPageData w = Some data ∧
     (100 < length (content data) ≤ maxLength + 15)%nat ∧
     url data = href w ∧ domain data = hostname w ∧
     timestamp data = Content.isoNow w ∧
     title data ≠ [] ∧
     (documentTitle w ≠ [] → title data = documentTitle w) ∧
     (documentTitle w = [] → title data = lit "Untitled")) ∧
  (run w = Dropped ↔
     browsingDigestLoaded w = false ∧
     shouldSkip (href w) = false ∧
     ∃ p, extractPageData w = Some p ∧ (length (content p) ≤ 100)%nat).
Proof.
  unfold run. split.
  - intros data.
    destruct (browsingDigestLoaded w); [done|].
    destruct (shouldSkip (href w)); [done|].
    destruct (extractPageData w) as [p|] eqn:Hp; [|done].
    destruct (Nat.ltb_spec 100 (length (content p))) as [Hlt|Hge]; [|done].
    intros [= ->]. split; [done|]. split; [done|]. split; [done|].
    pose proof Hp as (Hc & _)%extractPageData_Some.
    apply extractMainContent_length in Hc. split; [lia|].
    unfold extractPageData in Hp.
    destruct (extractMainContent (document w)); [|done].
    injection Hp as <-. cbn.
    split; [done|]. split; [done|]. split; [done|].
    destruct (documentTitle w); [by repeat split | by repeat split].
  - destruct (browsingDigestLoaded w); [split; [done | by intros [? _]]|].
    destruct (shouldSkip (href w)); [split; [done | by intros (_ & ? & _)]|].
    destruct (extractPageData w) as [p|];
      [|split; [done | by intros (_ & _ & ? & ? & _)]].
    destruct (Nat.ltb_spec 100 (length (content p))) as [Hlt|Hge].
    + split; [done|]. intros (_ & _ & p' & [= <-] & Hle). lia.
    + split; [|done]. intros _. split; [done|]. split; [done|]. by exists p.
Qed.

(** X9 (failed extraction). On a page that is not skipped, the extraction
    fails exactly when no selector of the list qualifies and the document
    has no body; any document with a body gives page data. *)
Theorem extraction_fails_without_body w :
  (run w = ExtractionError ↔
     browsingDigestLoaded w = false ∧
     shouldSkip (href w) = false ∧
     body (document w) = None ∧
     ∀ s, s ∈ mainSelectors → ¬ ∃ e, qualifies (document w) s e) ∧
  (is_Some (body (document w)) → is_Some (extractPageData w)).
Proof.
  assert (Hnone : extractPageData w = None ↔
            body (document w) = None ∧
            ∀ s, s ∈ mainSelectors → ¬ ∃ e, qualifies (document w) s e).
  { unfold extractPageData, extractMainContent, mainElement.
    destruct (select_main_cases (document w) mainSelectors)
      as [(before & sel & after & el & Heq & Hb & Hq)|Hno].
    - rewrite Heq at 1.
      rewrite (select_main_first _ before sel after el Hb Hq).
      split; [done|]. intros [_ Hall]. destruct (Hall sel).
      + rewrite Heq. apply elem_of_app. right. by left.
      + by exists el.
    - rewrite (select_main_none _ _ Hno).
      destruct (body (document w)); [|done].
      split; [done | by intros [? _]]. }
  split.
  - unfold run.
    destruct (browsingDigestLoaded w); [split; [done | by intros [? _]]|].
    destruct (shouldSkip (href w)); [split; [done | by intros (_ & ? & _)]|].
    destruct (extractPageData w) as [p|].
    + split.
      * by destruct (100 <? length (content p))%nat.
      * intros (_ & _ & Hb). by apply Hnone in Hb.
    + split; [|done]. intros _. split; [done|]. split; [done|].
      by apply Hnone.
  - intros [b Hb]. destruct (extractPageData w) as [p|]; [done|].
    destruct (proj1 Hnone eq_refl) as [Hp _]. congruence.
Qed.

End Outcomes.

(** The page of 300 letters is sent; a document without body fails. *)
Lemma sent_page_data_witness :
  ∃ data, run (window_on (page [TextNode (replicate 300 97)])) = Sent data ∧
          (100 < length (content data) ≤ maxLength + 15)%nat ∧
          title data = lit "An article".
Proof.
  eexists. split; [vm_compute; reflexivity|].
  destruct (proj1 (sent_page_data
                     (window_on (page [TextNode (replicate 300 97)])))
              _ eq_refl)
    as (_ & _ & _ & Hlen & _ & _ & _ & _ & Htitle & _).
  split; [exact Hlen | apply Htitle; discriminate].
Defined.

Lemma extraction_fails_without_body_witness :
  run (window_on {| documentElement := Element "html" [] [] [] |})
  = ExtractionError.
Proof.
  apply (proj1 (extraction_fails_without_body _)).
  split; [reflexivity|]. split; [vm_compute; reflexivity|].
  split; [reflexivity|].
  intros s Hs (e & Hq & _). revert Hq.
  repeat (apply elem_of_cons in Hs as [->|Hs]; [discriminate|]).
  by apply elem_of_nil in Hs.
Defined.

(** ** The store under runs of messages *)

Section Messages.

Variable toDateString : Val → jsstring.

Implicit Types (date : Val) (entry pageData : Obj) (env : Env)
  (st : Storage) (message : Message) (messages : list (Message * Env)).

Lemma savePageData_cases pageData env st :
  (∃ error, savePageData pageData env st = (Rejected error, st) ∧
            (getError env = Some error ∨ setError env = Some error)) ∨
  (getError env = None ∧ setError env = None ∧
   savePageData pageData env st =
     (Resolved tt,
      <[STORAGE_KEY :=
          pushed_history (stored_history st) (new_entry pageData env)]> st)).
Proof.
  unfold savePageData.
  destruct (getError env) as [e|]; [left; exists e; by split; [|left]|].
  destruct (setError env) as [e|]; [left; exists e; by split; [|right]|].
  by right.
Qed.

Lemma clearHistory_cases date env st :
  (∃ error, clearHistory toDateString date env st = (Rejected error, st) ∧
            (getError env = Some error ∨ setError env = Some error)) ∨
  (∃ history,
     clearHistory toDateString date env st =
       (Resolved tt, <[STORAGE_KEY := history]> st) ∧
     history =
       if truthy date
       then filter (fun entry => ¬ same_day toDateString date entry)
              (stored_history st)
       else []).
Proof.
  unfold clearHistory. destruct (truthy date); simpl.
  - destruct (getError env) as [e|]; [left; exists e; by split; [|left]|].
    destruct (setError env) as [e|]; [left; exists e; by split; [|right]|].
    right. by eexists.
  - destruct (setError env) as [e|]; [left; exists e; by split; [|right]|].
    right. by eexists.
Qed.

(** X10 (effects of a message). Whatever the message, the storage under
    any other key is left alone; a failure response carries the error that
    the storage reported and leaves the storage as it was; [GET_HISTORY]
    and [EXPORT_DATA] never change the storage. *)
Theorem message_effects message env st :
  let '(response, st') := onMessage toDateString message env st in
  (∀ k, k ≠ STORAGE_KEY → st' !! k = st !! k) ∧
  (∀ error, response = Failure error →
     st' = st ∧ (getError env = Some error ∨ setError env = Some error)) ∧
  match message with
  | GET_HISTORY _ | EXPORT_DATA _ => st' = st
  | _ => True
  end.
Proof.
  destruct message as [data|date|date|date]; simpl.
  - destruct (savePageData_cases data env st)
      as [(e & -> & He)|(_ & _ & ->)].
    + split; [done|]. split; [|done]. by intros error [= <-].
    + split; [intros k Hk; by rewrite lookup_insert_ne|]. done.
  - unfold getHistory. destruct (getError env) as [e|] eqn:He.
    + split; [done|]. split; [|done]. intros error [= <-]. split; [done | by left].
    + done.
  - unfold exportData, getHistory. destruct (getError env) as [e|] eqn:He.
    + split; [done|]. split; [|done]. intros error [= <-]. split; [done | by left].
    + done.
  - destruct (clearHistory_cases date env st)
      as [(e & -> & He)|(history & -> & _)].
    + split; [done|]. split; [|done]. by intros error [= <-].
    + split; [intros k Hk; by rewrite lookup_insert_ne|]. done.
Qed.

Lemma onMessage_history message env st :
  let st' := (onMessage toDateString message env st).2 in
  stored_history st' = stored_history st ∨
  (∃ data, message = PAGE_DATA data ∧
     stored_history st' =
       pushed_history (stored_history st) (new_entry data env)) ∨
  (∃ date, message = CLEAR_HISTORY date ∧ truthy date = true ∧
     stored_history st' =
       filter (fun entry => ¬ same_day toDateString date entry)
         (stored_history st)) ∨
  (∃ date, message = CLEAR_HISTORY date ∧ stored_history st' = []).
Proof.
  destruct message as [data|date|date|date]; simpl.
  - destruct (savePageData_cases data env st)
      as [(e & -> & He)|(_ & _ & ->)]; [by left|].
    cbn [snd]. right. left. exists data. by rewrite stored_history_insert.
  - left. by destruct (getHistory toDateString date env st).
  - left. by destruct (exportData toDateString date env st).
  - destruct (clearHistory_cases date env st)
      as [(e & -> & He)|(history & -> & ->)]; [by left|].
    cbn [snd]. rewrite stored_history_insert. right. right.
    destruct (truthy date) eqn:Hd; [left | right]; by exists date.
Qed.

Lemma handle_all_cons message env messages st :
  (handle_all toDateString ((message, env) :: messages) st).2 =
  (handle_all toDateString messages
     (onMessage toDateString message env st).2).2.
Proof.
  simpl. destruct (onMessage toDateString message env st) as [r st'].
  simpl. by destruct (handle_all toDateString messages st').
Qed.

(** A property of the history that every message keeps is kept by every
    run of messages. *)
Lemma handle_all_invariant (P : list Obj → Prop) messages st :
  (∀ message env st,
     P (stored_history st) →
     P (stored_history (onMessage toDateString message env st).2)) →
  P (stored_history st) →
  P (stored_history (handle_all toDateString messages st).2).
Proof.
  intros Hstep. revert st.
  induction messages as [|[message env] messages IH]; intros st HP; [done|].
  rewrite handle_all_cons. by apply IH, Hstep.
Qed.

(** X11 (size of the store). A store of at most [MAX_ENTRIES] entries has
    at most [MAX_ENTRIES] entries after any run of messages, whatever the
    storage errors on the way. *)
Theorem store_stays_within_limit messages st :
  (length (stored_history st) ≤ MAX_ENTRIES)%nat →
  (length (stored_history (handle_all toDateString messages st).2)
   ≤ MAX_ENTRIES)%nat.
Proof.
  apply (handle_all_invariant (fun h => length h ≤ MAX_ENTRIES)%nat).
  clear. intros message env st Hlen.
  destruct (onMessage_history message env st)
    as [->|[(data & _ & ->)|[(date & _ & _ & ->)|(date & _ & ->)]]].
  - done.
  - rewrite pushed_history_slice, slice_last_length. lia.
  - pose proof (length_filter
                  (fun entry => ¬ same_day toDateString date entry)
                  (stored_history st)). lia.
  - simpl. lia.
Qed.

Lemma new_entry_stamped pageData env : stamped (new_entry pageData env).
Proof.
  unfold stamped, new_entry. split.
  - exists (generateId env). by rewrite lookup_insert_ne, lookup_insert_eq.
  - exists (Background.isoNow env). by rewrite lookup_insert_eq.
Qed.

(** X12 (stamps). The entry made for a page has the generated [id] and the
    instant of the save as [savedAt], also when the page data has fields of
    these names, and every other field as in the page data. When every
    stored entry has an [id] and a [savedAt], this is still so after any
    run of messages. *)
Theorem entries_are_stamped :
  (∀ pageData env,
     get (new_entry pageData env) "id" = VStr (generateId env) ∧
     get (new_entry pageData env) "savedAt" = VStr (Background.isoNow env) ∧
     ∀ k, k ≠ "id" → k ≠ "savedAt" →
          new_entry pageData env !! k = pageData !! k) ∧
  (∀ messages st,
     Forall stamped (stored_history st) →
     Forall stamped
       (stored_history (handle_all toDateString messages st).2)).
Proof.
  split.
  - intros pageData env. unfold get, new_entry.
    split; [by rewrite lookup_insert_ne, lookup_insert_eq|].
    split; [by rewrite lookup_insert_eq|].
    intros k Hid Hsaved. by rewrite !lookup_insert_ne.
  - intros messages st. apply (handle_all_invariant (Forall stamped)).
    clear. intros message env st Hall.
    destruct (onMessage_history message env st)
      as [->|[(data & _ & ->)|[(date & _ & _ & ->)|(date & _ & ->)]]].
    + done.
    + rewrite pushed_history_slice. unfold slice_last.
      apply Forall_drop, Forall_app. split; [done|].
      constructor; [apply new_entry_stamped | constructor].
    + apply Forall_forall. intros entry [_ Hin]%list_elem_of_filter.
      by apply (proj1 (Forall_forall _ _) Hall).
    + constructor.
Qed.

End Messages.

(** The 501 numbered captures sent as messages to the empty storage. *)
Lemma store_stays_within_limit_witness :
  (length (stored_history (∅ : Storage)) ≤ MAX_ENTRIES)%nat ∧
  (length (stored_history
             (handle_all utc_day
                (map (fun c => (PAGE_DATA c.1, c.2)) many_captures) ∅).2)
   ≤ MAX_ENTRIES)%nat.
Proof.
  assert (H0 : (length (stored_history (∅ : Storage)) ≤ MAX_ENTRIES)%nat)
    by apply Nat.le_0_l.
  split; [exact H0|].
  exact (store_stays_within_limit utc_day _ ∅ H0).
Defined.

(** The store with three captures, none of them stamped, once cleared of
    5 February and given a new capture. *)
Lemma entries_are_stamped_witness :
  Forall stamped (stored_history (∅ : Storage)) ∧
  Forall stamped
    (stored_history
       (handle_all utc_day
          [ (PAGE_DATA (capture "https://d.example/4"
                          "2026-02-07T07:00:00.000Z"), quiet);
            (CLEAR_HISTORY feb5, quiet) ] ∅).2).
Proof.
  assert (H0 : Forall stamped (stored_history (∅ : Storage)))
    by constructor.
  split; [exact H0|].
  exact (proj2 (entries_are_stamped utc_day) _ ∅ H0).
Defined.

(** ** How the operations of the store compose *)

Section Composition.

Variable toDateString : Val → jsstring.

Implicit Types (date : Val) (entry pageData : Obj) (env : Env)
  (st : Storage).

(** X13 (a saved page in the queries). After a successful save into a store
    that is not full, the query of a day returns what it returned before,
    followed by the new entry when the page is of that day; the query
    without date returns the old store followed by the new entry. *)
Theorem saved_page_shows_in_its_day pageData env env' st date :
  getError env = None → setError env = None → getError env' = None →
  (S (length (stored_history st)) ≤ MAX_ENTRIES)%nat →
  let st' := (savePageData pageData env st).2 in
  let entry := new_entry pageData env in
  let before := filter (same_day toDateString date) (stored_history st) in
  (truthy date = false →
     getHistory toDateString date env' st' =
       Resolved (stored_history st ++ [entry])) ∧
  (truthy date = true → same_day toDateString date pageData →
     getHistory toDateString date env' st' = Resolved (before ++ [entry])) ∧
  (truthy date = true → ¬ same_day toDateString date pageData →
     getHistory toDateString date env' st' = Resolved before).
Proof.
  intros Hg Hs Hg' Hroom. cbn zeta.
  rewrite savePageData_ok by done. cbn [snd].
  rewrite getHistory_ok, stored_history_insert by done.
  assert (Hpush : pushed_history (stored_history st) (new_entry pageData env)
                  = stored_history st ++ [new_entry pageData env]).
  { rewrite pushed_history_slice. apply slice_last_all.
    rewrite length_app. simpl. lia. }
  rewrite Hpush.
  assert (Hday : same_day toDateString date (new_entry pageData env)
                 ↔ same_day toDateString date pageData).
  { unfold same_day. by rewrite new_entry_get. }
  split; [by intros ->|]. split; intros -> Hsame; rewrite filter_app.
  - by rewrite filter_cons_True by (by apply Hday).
  - rewrite filter_cons_False by (by rewrite Hday). by rewrite app_nil_r.
Qed.

(** X14 (clearing days). Clearing a day twice is clearing it once, and two
    days can be cleared in either order. *)
Theorem clearing_days_commutes date1 date2 env1 env2 st :
  getError env1 = None → setError env1 = None →
  getError env2 = None → setError env2 = None →
  truthy date1 = true → truthy date2 = true →
  (clearHistory toDateString date1 env2
     (clearHistory toDateString date1 env1 st).2).2
  = (clearHistory toDateString date1 env1 st).2 ∧
  (clearHistory toDateString date2 env2
     (clearHistory toDateString date1 env1 st).2).2
  = (clearHistory toDateString date1 env2
       (clearHistory toDateString date2 env1 st).2).2.
Proof.
  intros Hg1 Hs1 Hg2 Hs2 Hd1 Hd2.
  rewrite !clearHistory_day by done. cbn [snd].
  rewrite !stored_history_insert, !insert_insert_eq.
  rewrite !list_filter_filter. split; f_equal.
  - apply list_filter_iff. tauto.
  - apply list_filter_iff. tauto.
Qed.

Lemma onInstalled_present env st h :
  st !! STORAGE_KEY = Some h → onInstalled env st = st.
Proof.
  intros Hst. unfold onInstalled. rewrite Hst. by destruct (getError env).
Qed.

Lemma onInstalled_absent env st :
  getError env = None → st !! STORAGE_KEY = None →
  onInstalled env st =
    match setError env with
    | Some _ => st
    | None => <[STORAGE_KEY := []]> st
    end.
Proof. intros Hg Hst. unfold onInstalled. by rewrite Hg, Hst. Qed.

(** X15 (installation). When the read succeeds, the installation listener
    leaves the history that the operations read unchanged, whether or not
    something was stored; it touches no other key, and once the write has
    succeeded the key is present and a second installation changes
    nothing. *)
Theorem installation_keeps_the_history env st :
  getError env = None →
  stored_history (onInstalled env st) = stored_history st ∧
  (∀ k, k ≠ STORAGE_KEY → onInstalled env st !! k = st !! k) ∧
  (setError env = None →
     is_Some (onInstalled env st !! STORAGE_KEY) ∧
     ∀ env', onInstalled env' (onInstalled env st) = onInstalled env st).
Proof.
  intros Hg. destruct (st !! STORAGE_KEY) as [h|] eqn:Hst.
  - rewrite (onInstalled_present env st h Hst).
    split; [done|]. split; [done|]. intros _. split; [by exists h|].
    intros env'. by apply (onInstalled_present env' st h).
  - rewrite (onInstalled_absent env st Hg Hst).
    destruct (setError env) as [e|]; [done|].
    split; [unfold stored_history; by rewrite lookup_insert_eq, Hst|].
    split; [intros k Hk; by rewrite lookup_insert_ne|]. intros _.
    split; [rewrite lookup_insert_eq; by eexists|]. intros env'.
    apply (onInstalled_present env' _ []). by rewrite lookup_insert_eq.
Qed.

End Composition.

(** A save into the store with three captures, then the query of its day. *)
Lemma saved_page_shows_in_its_day_witness :
  ∃ result,
    getHistory utc_day feb5 quiet
      (savePageData
         (capture "https://d.example/4" "2026-02-05T12:00:00.000Z")
         quiet three_captures).2 = Resolved result ∧
    length result = 3%nat.
Proof.
  destruct (saved_page_shows_in_its_day utc_day
              (capture "https://d.example/4" "2026-02-05T12:00:00.000Z")
              quiet quiet three_captures feb5 eq_refl eq_refl eq_refl
              ltac:(vm_compute; lia))
    as (_ & Hday & _).
  eexists. split; [apply Hday; vm_compute; reflexivity|].
  vm_compute. reflexivity.
Defined.

Lemma clearing_days_commutes_witness :
  (clearHistory utc_day (VStr (lit "2026-02-06")) quiet
     (clearHistory utc_day feb5 quiet three_captures).2).2
  = (clearHistory utc_day feb5 quiet
       (clearHistory utc_day (VStr (lit "2026-02-06")) quiet
          three_captures).2).2.
Proof.
  exact (proj2 (clearing_days_commutes utc_day feb5
                  (VStr (lit "2026-02-06")) quiet quiet three_captures
                  eq_refl eq_refl eq_refl eq_refl eq_refl eq_refl)).
Defined.

Lemma installation_keeps_the_history_witness :
  stored_history (onInstalled quiet three_captures)
  = stored_history three_captures ∧
  is_Some (onInstalled quiet ∅ !! STORAGE_KEY).
Proof.
  split.
  - exact (proj1 (installation_keeps_the_history quiet three_captures
                    eq_refl)).
  - exact (proj1 (proj2 (proj2 (installation_keeps_the_history quiet ∅
                                  eq_refl)) eq_refl)).
Defined.

(** ** Dates that are no dates *)

Section FalsyDates.

Variable toDateString : Val → jsstring.

Implicit Types (date : Val) (env : Env) (st : Storage).

(** X16 (falsy dates). A date that is falsy, such as the empty text of an
    emptied date field, is treated like no date at all: the three
    operations answer and act as they do for [undefined]. So a
    [CLEAR_HISTORY] with such a date empties the store when the write
    succeeds, and an [EXPORT_DATA] exports every page under the date
    "all". *)
Theorem falsy_date_is_no_date date env st :
  truthy date = false →
  onMessage toDateString (GET_HISTORY date) env st
    = onMessage toDateString (GET_HISTORY VUndefined) env st ∧
  onMessage toDateString (EXPORT_DATA date) env st
    = onMessage toDateString (EXPORT_DATA VUndefined) env st ∧
  onMessage toDateString (CLEAR_HISTORY date) env st
    = onMessage toDateString (CLEAR_HISTORY VUndefined) env st ∧
  (setError env = None →
     stored_history
       (onMessage toDateString (CLEAR_HISTORY date) env st).2 = []) ∧
  (getError env = None →
     ∃ doc, onMessage toDateString (EXPORT_DATA date) env st
              = (SuccessExport doc, st) ∧
            Background.date doc = VStr (lit "all") ∧
            totalPages doc = length (stored_history st)).
Proof.
  intros Hd. split; [|split; [|split; [|split]]].
  - simpl. unfold getHistory. by rewrite Hd.
  - simpl. unfold exportData, getHistory, or_else. by rewrite Hd.
  - simpl. unfold clearHistory. by rewrite Hd.
  - intros Hs. simpl. rewrite clearHistory_all by done.
    apply stored_history_insert.
  - intros Hg. simpl. unfold exportData.
    rewrite getHistory_ok by done. rewrite Hd. eexists. split; [done|].
    cbn. unfold or_else. by rewrite Hd.
Qed.

End FalsyDates.

(** The empty text as the date of a clearing of the three captures. *)
Lemma falsy_date_is_no_date_witness :
  truthy (VStr []) = false ∧
  stored_history
    (onMessage utc_day (CLEAR_HISTORY (VStr [])) quiet three_captures).2
  = [].
Proof.
  split; [reflexivity|].
  exact (proj1 (proj2 (proj2 (proj2
           (falsy_date_is_no_date utc_day (VStr []) quiet three_captures
              eq_refl)))) eq_refl).
Defined.

(** ** The icon of a domain *)

Section Icons.

Implicit Types (domain key emoji : jsstring)
  (entries : list (jsstring * jsstring)).

Lemma first_emoji_first domain before key emoji after :
  (∀ k e, (k, e) ∈ before → includes domain k = false) →
  includes domain key = true →
  first_emoji domain (before ++ (key, emoji) :: after) = emoji.
Proof.
  intros Hbefore Hkey. induction before as [|[k e] before IH]; simpl.
  - by rewrite Hkey.
  - rewrite (Hbefore k e) by left. apply IH.
    intros k' e' Hin. apply (Hbefore k' e'). by right.
Qed.

Lemma first_emoji_none domain entries :
  (∀ k e, (k, e) ∈ entries → includes domain k = false) →
  first_emoji domain entries = default_emoji.
Proof.
  induction entries as [|[k e] entries IH]; intros Hnone; [done|].
  simpl. rewrite (Hnone k e) by left. apply IH.
  intros k' e' Hin. apply (Hnone k' e'). by right.
Qed.

(** A text that contains [netflix.com] contains [x.com]. *)
Lemma includes_netflix_x domain :
  includes domain (lit "netflix.com") = true →
  includes domain (lit "x.com") = true.
Proof.
  unfold includes. rewrite !occurs_in_infix.
  intros (before & after & ->).
  exists (before ++ lit "netfli"), after. by rewrite <- app_assoc.
Qed.

(** X17 (icons). The icon of a domain is that of the first key of the
    table that occurs in it, whatever the later keys, and the globe when no
    key occurs. As every text that contains [netflix.com] contains
    [x.com], which comes before it, such a domain never gets the icon of
    the [netflix.com] entry by that entry: unless one of the four keys
    before [x.com] occurs in it, it gets the bird of [x.com]. *)
Theorem icon_is_first_match domain :
  (∀ before key emoji after,
     emojiMap = before ++ (key, emoji) :: after →
     (∀ k e, (k, e) ∈ before → includes domain k = false) →
     includes domain key = true →
     getEmojiForDomain domain = emoji) ∧
  ((∀ k e, (k, e) ∈ emojiMap → includes domain k = false) →
     getEmojiForDomain domain = default_emoji) ∧
  (includes domain (lit "netflix.com") = true →
     includes domain (lit "github.com") = false →
     includes domain (lit "stackoverflow.com") = false →
     includes domain (lit "youtube.com") = false →
     includes domain (lit "twitter.com") = false →
     getEmojiForDomain domain = text_of [0x1F426]).
Proof.
  split; [|split].
  - intros before key emoji after Heq Hbefore Hkey.
    unfold getEmojiForDomain. rewrite Heq. by apply first_emoji_first.
  - apply first_emoji_none.
  - intros Hn Hg Hs Hy Ht. apply includes_netflix_x in Hn.
    unfold getEmojiForDomain, emojiMap. simpl.
    by rewrite Hg, Hs, Hy, Ht, Hn.
Qed.

Lemma icon_is_first_match_witness :
  getEmojiForDomain (lit "www.netflix.com") = text_of [0x1F426].
Proof.
  apply (proj2 (proj2 (icon_is_first_match (lit "www.netflix.com"))));
    vm_compute; reflexivity.
Defined.

End Icons.

(** ** Escaping *)

Section Escaping.

Implicit Types (text s t : jsstring) (c : N).

Lemma escape_unit_plain c : special c = false → escape_unit c = [c].
Proof.
  unfold special, escape_unit. intros H.
  apply orb_false_elim in H as [H ->].
  apply orb_false_elim in H as [H ->].
  by apply orb_false_elim in H as [-> ->].
Qed.

Lemma escape_unit_special c :
  special c = true →
  (c = 38 ∧ escape_unit c = lit "&amp;") ∨
  (c = 60 ∧ escape_unit c = lit "&lt;") ∨
  (c = 62 ∧ escape_unit c = lit "&gt;") ∨
  (c = 160 ∧ escape_unit c = lit "&nbsp;").
Proof.
  unfold special, escape_unit. intros H.
  destruct (N.eqb_spec c 38) as [E|_]; [by left|].
  destruct (N.eqb_spec c 60) as [E|_]; [by right; left|].
  destruct (N.eqb_spec c 62) as [E|_]; [by right; right; left|].
  destruct (N.eqb_spec c 160) as [E|_]; [by right; right; right | done].
Qed.

Lemma absent_by_decision (x : N) (l : list N) :
  bool_decide (x ∈ l) = false → x ∉ l.
Proof. apply bool_decide_eq_false_1. Qed.

(** An entity starts with [&] and contains neither [<] nor [>]. *)
Lemma escape_unit_shape c :
  special c = true →
  (∃ rest, escape_unit c = 38 :: rest) ∧
  (60 ∉ escape_unit c) ∧ (62 ∉ escape_unit c).
Proof.
  intros [[_ ->]|[[_ ->]|[[_ ->]|[_ ->]]]]%escape_unit_special;
    (split; [by eexists|]); split; by apply absent_by_decision.
Qed.

Lemma special_false c :
  special c = false → c ≠ 38 ∧ c ≠ 60 ∧ c ≠ 62 ∧ c ≠ 160.
Proof. intros H. repeat split; by intros ->. Qed.

Lemma escapeHtml_app s t : escapeHtml (s ++ t) = escapeHtml s ++ escapeHtml t.
Proof.
  induction s as [|c s IH]; [done|]. simpl. by rewrite IH, app_assoc.
Qed.

Lemma escapeHtml_no_markup text :
  (60 ∉ escapeHtml text) ∧ (62 ∉ escapeHtml text).
Proof.
  induction text as [|c r [IH60 IH62]]; simpl.
  - split; apply not_elem_of_nil.
  - assert ((60 ∉ escape_unit c) ∧ (62 ∉ escape_unit c)) as [H60 H62].
    { destruct (special c) eqn:Hc.
      - by apply escape_unit_shape.
      - rewrite (escape_unit_plain c Hc).
        apply special_false in Hc as (_ & ? & ? & _).
        split; intros Hin%list_elem_of_singleton; congruence. }
    split; intros [Hin|Hin]%elem_of_app; done.
Qed.

Lemma escapeHtml_cons_not_nil c r : escape_unit c ++ escapeHtml r ≠ [].
Proof.
  destruct (special c) eqn:Hc.
  - by destruct (escape_unit_shape c Hc) as ((rest & ->) & _).
  - by rewrite (escape_unit_plain c Hc).
Qed.

(** The first code unit written for a text of which the escape is given;
    two entities are told apart by what follows the [&]. *)
Lemma escape_unit_head c c' r r' :
  escape_unit c ++ r = escape_unit c' ++ r' → c = c'.
Proof.
  destruct (special c) eqn:Hc, (special c') eqn:Hc'.
  - destruct (escape_unit_special c Hc) as [[-> ->]|[[-> ->]|[[-> ->]|[-> ->]]]],
      (escape_unit_special c' Hc')
        as [[-> ->]|[[-> ->]|[[-> ->]|[-> ->]]]];
      intros Heq; first [reflexivity | discriminate Heq].
  - destruct (escape_unit_shape c Hc) as ((rest & ->) & _).
    rewrite (escape_unit_plain c' Hc').
    apply special_false in Hc' as (? & _). intros [= <- _]. done.
  - destruct (escape_unit_shape c' Hc') as ((rest & ->) & _).
    rewrite (escape_unit_plain c Hc).
    apply special_false in Hc as (? & _). intros [= -> _]. done.
  - rewrite (escape_unit_plain c Hc), (escape_unit_plain c' Hc').
    by intros [= -> _].
Qed.

Lemma escapeHtml_injective s t : escapeHtml s = escapeHtml t → s = t.
Proof.
  revert t. induction s as [|c s IH]; intros [|c' t]; simpl.
  - done.
  - intros Heq. symmetry in Heq. by apply escapeHtml_cons_not_nil in Heq.
  - intros Heq. by apply escapeHtml_cons_not_nil in Heq.
  - intros Heq. pose proof (escape_unit_head _ _ _ _ Heq) as <-.
    f_equal. apply IH. by apply app_inv_head in Heq.
Qed.

(** X18 (escaping). The escaped text contains neither [<] nor [>], and two
    texts with the same escaped text are the same text. A text without [&],
    [<], [>] and no-break space is left as it is; in particular the double
    quote is never escaped, wherever it stands. The excerpt of the report
    has at most 503 code units and contains neither [<] nor [>]. *)
Theorem escaping_removes_markup :
  (∀ text, (60 ∉ escapeHtml text) ∧ (62 ∉ escapeHtml text)) ∧
  (∀ s t, escapeHtml s = escapeHtml t → s = t) ∧
  (∀ text, Forall (fun c => c ≠ 38 ∧ c ≠ 60 ∧ c ≠ 62 ∧ c ≠ 160) text →
     escapeHtml text = text) ∧
  (∀ s t, escapeHtml (s ++ 34 :: t) = escapeHtml s ++ 34 :: escapeHtml t) ∧
  (∀ content,
     (length (excerpt content) ≤ 503)%nat ∧
     (60 ∉ excerpt content) ∧ (62 ∉ excerpt content)).
Proof.
  split; [apply escapeHtml_no_markup|].
  split; [apply escapeHtml_injective|]. split; [|split].
  - intros text Hplain. induction Hplain as [|c r (? & ? & ? & ?) _ IH]; [done|].
    simpl. rewrite escape_unit_plain, IH; [done|].
    unfold special.
    destruct (N.eqb_spec c 38), (N.eqb_spec c 60), (N.eqb_spec c 62),
      (N.eqb_spec c 160); done.
  - intros s t. by rewrite escapeHtml_app.
  - intros content. unfold excerpt.
    destruct (escapeHtml_no_markup content) as [H60 H62].
    split.
    { rewrite length_app, length_take.
      change (length (lit "...")) with 3%nat. lia. }
    split; intros Hin; apply elem_of_app in Hin as [Hin|Hin].
    + apply H60. by apply (subseteq_take 500).
    + revert Hin. by apply absent_by_decision.
    + apply H62. by apply (subseteq_take 500).
    + revert Hin. by apply absent_by_decision.
Qed.

End Escaping.

(** ** The lists of the popup *)

Section Sorting.

Variable cmp : Obj → Obj → option Z.
Variable key : Obj → Z.
Variable ok : Obj → Prop.

(** On the pages at hand the comparator orders by the key. *)
Hypothesis cmp_key :
  ∀ a b, ok a → ok b → (sort_compare cmp a b ≤ 0 ↔ key a ≤ key b)%Z.

Implicit Types (x y : Obj) (l : list Obj).

Lemma StronglySorted_weaken (R R' : Obj → Obj → Prop) l :
  (∀ a b, R a b → R' a b) → StronglySorted R l → StronglySorted R' l.
Proof.
  intros Himpl. induction 1 as [|x r Hr IH Hx]; constructor; [done|].
  eapply Forall_impl; [exact Hx | apply Himpl].
Qed.

Lemma insert_sorted_perm (c : Obj → Obj → option Z) x l :
  insert_sorted c x l ≡ₚ x :: l.
Proof.
  induction l as [|y r IH]; simpl; [done|].
  destruct (sort_compare c x y <=? 0)%Z; [done|].
  rewrite IH. apply perm_swap.
Qed.

Lemma sort_perm (c : Obj → Obj → option Z) l : sort c l ≡ₚ l.
Proof.
  induction l as [|x l IH]; simpl; [done|].
  by rewrite insert_sorted_perm, IH.
Qed.

Lemma insert_sorted_sorted x l :
  ok x → Forall ok l →
  StronglySorted (fun a b => key a ≤ key b)%Z l →
  StronglySorted (fun a b => key a ≤ key b)%Z (insert_sorted cmp x l).
Proof.
  intros Hx Hl Hs. induction Hs as [|y r Hr IH Hy]; simpl.
  - repeat constructor.
  - apply Forall_cons in Hl as [Hoky Hl].
    destruct (Z.leb_spec (sort_compare cmp x y) 0) as [Hle|Hgt].
    + apply cmp_key in Hle; [|done..].
      constructor; [by constructor|]. constructor; [done|].
      eapply Forall_impl; [exact Hy|]. simpl. intros z Hz. lia.
    + assert (key y ≤ key x)%Z.
      { destruct (Z.le_gt_cases (key x) (key y)) as [Hle|?]; [|lia].
        apply cmp_key in Hle; [lia | done..]. }
      constructor; [by apply IH|].
      rewrite insert_sorted_perm. by constructor.
Qed.

Lemma sort_sorted l :
  Forall ok l → StronglySorted (fun a b => key a ≤ key b)%Z (sort cmp l).
Proof.
  induction l as [|x l IH]; intros Hl; simpl; [constructor|].
  apply Forall_cons in Hl as [Hx Hl].
  apply insert_sorted_sorted; [done | by rewrite sort_perm | by apply IH].
Qed.

End Sorting.

Section Lists.

Variable toDateString : Val → jsstring.
Variable getTime : Val → option Z.

Implicit Types (date : jsstring) (env : Env) (st : Storage)
  (pages today : list Obj) (x y : Obj).

(** X19 (the count of the day). For a date that is not empty, the pages
    that the popup counts for the day, filtered from the whole history, are
    the pages that the service worker returns, and so exports, for that
    day. For the empty date the service worker returns the whole history,
    whereas the popup still filters it. The pages of the day are always a
    subsequence of the history. *)
Theorem popup_filter_agrees_with_query date env st :
  getError env = None →
  (date ≠ [] →
     getHistory toDateString (VStr date) env st =
       Resolved (todayData toDateString date (stored_history st))) ∧
  (date = [] →
     getHistory toDateString (VStr date) env st =
       Resolved (stored_history st)) ∧
  todayData toDateString date (stored_history st)
    `sublist_of` stored_history st.
Proof.
  intros Hg. rewrite getHistory_ok by done. split; [|split].
  - intros Hne. by destruct date.
  - by intros ->.
  - apply sublist_filter.
Qed.

Lemma reading_addend_number page n :
  reading_addend page = AddNumber n → n = minutes page.
Proof.
  unfold reading_addend, minutes.
  destruct (get page "readingTime") as [| |[]|?|[|??]]; by intros [= <-].
Qed.

Lemma foldl_add_reading a pages :
  Forall (fun page => ∃ n, reading_addend page = AddNumber n) pages →
  foldl add_reading (SumNumber a) pages =
    SumNumber (a + foldr Z.add 0 (map minutes pages))%Z.
Proof.
  revert a. induction pages as [|page pages IH]; intros a Hnum;
    cbn [foldl map foldr].
  - f_equal. lia.
  - apply Forall_cons in Hnum as [[n Hn] Hnum].
    assert (add_reading (SumNumber a) page = SumNumber (a + n)%Z) as ->
      by (unfold add_reading; by rewrite Hn).
    rewrite IH by done. apply reading_addend_number in Hn as ->.
    f_equal. lia.
Qed.

Lemma sum_minutes_perm pages pages' :
  pages ≡ₚ pages' →
  foldr Z.add 0%Z (map minutes pages) = foldr Z.add 0%Z (map minutes pages').
Proof. induction 1; simpl; lia. Qed.


Lemma newest_first_key x y :
  dated getTime x → dated getTime y →
  (sort_compare (newest_first getTime) x y ≤ 0
   ↔ - instant getTime x ≤ - instant getTime y)%Z.
Proof.
  unfold dated, sort_compare, newest_first, date_minus, instant.
  intros [tx ->] [ty ->]. simpl. lia.
Qed.

Lemma oldest_first_key x y :
  dated getTime x → dated getTime y →
  (sort_compare (oldest_first getTime) x y ≤ 0
   ↔ instant getTime x ≤ instant getTime y)%Z.
Proof.
  unfold dated, sort_compare, oldest_first, date_minus, instant.
  intros [tx ->] [ty ->]. simpl. lia.
Qed.



End Lists.

(** *** The lists of the popup on the store with three captures *)

Section ThreeCapturesShown.

Lemma popup_filter_agrees_with_query_witness :
  getError quiet = None ∧ lit "2026-02-05" ≠ [] ∧
  getHistory utc_day (VStr (lit "2026-02-05")) quiet three_captures =
    Resolved (todayData utc_day (lit "2026-02-05")
                (stored_history three_captures)).
Proof.
  split; [reflexivity|]. split; [discriminate|].
  apply (proj1 (popup_filter_agrees_with_query utc_day (lit "2026-02-05")
                  quiet three_captures eq_refl)).
  discriminate.
Defined.

Lemma three_captures_numeric :
  Forall (fun page => ∃ n, reading_addend page = AddNumber n)
    (stored_history three_captures).
Proof. repeat constructor; by exists 1%Z. Qed.

Lemma three_captures_dated :
  Forall (dated iso_instant) (stored_history three_captures).
Proof. repeat constructor; by eexists. Qed.




End ThreeCapturesShown.
